(** * webcam-easy: a shallow embedding of [src/webcam.ts] and [src/types.ts]

    The class [Webcam] is a stateful wrapper around three platform services:
    [navigator.mediaDevices] (camera access and device enumeration), a
    [<video>] element that shows the stream, and a [<canvas>] element that
    rasterises a still frame.  The object's private fields, the DOM elements
    it holds and the part of the platform it acts on are threaded explicitly
    through every method.

    Conventions of the model.
    - Strings are [string]s of 8-bit characters (the UTF-8 bytes of the
      text).  [String.prototype.toLowerCase] belongs to the platform and
      follows the Unicode case tables, which are no part of this file:
      [toLowerCase] below is what it does on ASCII text (it folds [A-Z]),
      and [selectCamera_with] takes the platform's function as a parameter
      for what must hold of every label.
    - A platform call that the class issues (a media request, an
      enumeration, [play], a drawing call, [track.stop()]) is recorded, in
      program order, in the [trace] of the state.
    - What the platform answers to an asynchronous request is an input of
      the operation ([Settled]).  [start], [info] and [stream] are the
      promise chains run from the call to the settlement, callbacks in the
      order in which the source chains them.  The callbacks are also given
      one at a time ([Task]), for statements about every state that a
      session can reach when calls fall between them. *)

From stdpp Require Import base list gmap strings.
From Stdlib Require Import ZArith Ascii.

Local Open Scope Z_scope.
Local Open Scope string_scope.
Local Open Scope list_scope.

(** ** [src/types.ts] *)

Module types.

Inductive FacingMode : Set := environment | user.

Record DeviceId : Set := { exact : string }.

Record VideoConstraints : Set := {
  facingMode : option FacingMode;
  deviceId : option DeviceId
}.

Record MediaConstraints : Set := {
  video : VideoConstraints;
  audio : bool
}.

End types.

Abbreviation FacingMode := types.FacingMode.
Abbreviation user := types.user.
Abbreviation environment := types.environment.
Abbreviation MediaConstraints := types.MediaConstraints.
Abbreviation VideoConstraints := types.VideoConstraints.

#[global] Instance FacingMode_eq_dec : EqDecision FacingMode.
Proof. solve_decision. Defined.

(** A [FacingMode] is one of two string literals; this is the string it is. *)
Definition FacingMode_string (fm : FacingMode) : string :=
  match fm with
  | user => "user"
  | environment => "environment"
  end.

(** ** The platform's types (lib.dom) *)

(** [MediaDeviceKind] *)
Inductive MediaDeviceKind : Set := audioinput | audiooutput | videoinput.

#[global] Instance MediaDeviceKind_eq_dec : EqDecision MediaDeviceKind.
Proof. solve_decision. Defined.

Record MediaDeviceInfo : Set := {
  deviceId : string;
  groupId : string;
  kind : MediaDeviceKind;
  label : string
}.

(** A track is an object with an identity; whether it has been halted is
    platform state ([ended] below). *)
Definition MediaStreamTrack : Set := nat.

Record MediaStream : Set := { getTracks : list MediaStreamTrack }.

Record Error : Set := { message : string }.

(** How a promise settles. *)
Inductive Settled (A : Type) : Type :=
| Fulfilled (value : A)
| Rejected (reason : Error).
Arguments Fulfilled {A} value.
Arguments Rejected {A} reason.

(** How a synchronous call completes. *)
Inductive Completion (A : Type) : Type :=
| Return (value : A)
| Throw (error : Error).
Arguments Return {A} value.
Arguments Throw {A} error.

(** [HTMLVideoElement]: the attributes the class reads or writes. *)
Module Video.
Record t : Set := {
  width : Z;
  height : Z;
  scrollWidth : Z;
  scrollHeight : Z;
  srcObject : option MediaStream;
  style_transform : string
}.
End Video.

(** [HTMLCanvasElement].  [getContext('2d')] yields a context unless the
    canvas is already bound to a context of another kind. *)
Module Canvas.
Inductive ContextMode : Set := none | context2d | other.
Record t : Set := {
  width : Z;
  height : Z;
  mode : ContextMode
}.
End Canvas.

(** [HTMLAudioElement]: only [play()] is used. *)
Inductive HTMLAudioElement : Set := Audio.

(** Calls into the platform, as the class issues them. *)
Inductive Event : Set :=
| getUserMedia (constraints : MediaConstraints)
| enumerateDevices
| track_stop (track : MediaStreamTrack)
| video_play
| audio_play
| context_translate (x y : Z)
| context_scale (x y : Z)
| context_clearRect (x y w h : Z)
| context_drawImage (dx dy dw dh : Z)
| canvas_toDataURL (type : string).

(** ** Strings: [toLowerCase] and [includes] *)

Definition lower_ascii (c : ascii) : ascii :=
  let n := N_of_ascii c in
  if ((65 <=? n) && (n <=? 90))%N then ascii_of_N (n + 32) else c.

(** [toLowerCase] on ASCII text. *)
Fixpoint toLowerCase (s : string) : string :=
  match s with
  | EmptyString => EmptyString
  | String c s' => String (lower_ascii c) (toLowerCase s')
  end.

(** [s.includes(sub)]: [sub] occurs in [s] at some position. *)
Fixpoint includes (s sub : string) : bool :=
  String.prefix sub s ||
  match s with
  | EmptyString => false
  | String _ s' => includes s' sub
  end.

(** ** The class [Webcam] *)

(** The seven private fields of the class, followed by the two pieces of
    platform state its methods act on. *)
Record Webcam : Type := {
  _webcamElement : Video.t;
  _canvasElement : option Canvas.t;
  _snapSoundElement : option HTMLAudioElement;
  _facingMode : FacingMode;
  _webcamList : list MediaDeviceInfo;
  _streamList : list MediaStream;
  _selectedDeviceId : string;
  (** tracks whose [stop()] has taken effect *)
  ended : gset MediaStreamTrack;
  (** platform calls issued so far, oldest first *)
  trace : list Event
}.

Section Assignments.
Context (this : Webcam).

Definition set_webcamElement (v : Video.t) : Webcam :=
  {| _webcamElement := v;
     _canvasElement := _canvasElement this;
     _snapSoundElement := _snapSoundElement this;
     _facingMode := _facingMode this;
     _webcamList := _webcamList this;
     _streamList := _streamList this;
     _selectedDeviceId := _selectedDeviceId this;
     ended := ended this;
     trace := trace this |}.

Definition set_canvasElement (c : option Canvas.t) : Webcam :=
  {| _webcamElement := _webcamElement this;
     _canvasElement := c;
     _snapSoundElement := _snapSoundElement this;
     _facingMode := _facingMode this;
     _webcamList := _webcamList this;
     _streamList := _streamList this;
     _selectedDeviceId := _selectedDeviceId this;
     ended := ended this;
     trace := trace this |}.

Definition set_facingMode (fm : FacingMode) : Webcam :=
  {| _webcamElement := _webcamElement this;
     _canvasElement := _canvasElement this;
     _snapSoundElement := _snapSoundElement this;
     _facingMode := fm;
     _webcamList := _webcamList this;
     _streamList := _streamList this;
     _selectedDeviceId := _selectedDeviceId this;
     ended := ended this;
     trace := trace this |}.

Definition set_webcamList (l : list MediaDeviceInfo) : Webcam :=
  {| _webcamElement := _webcamElement this;
     _canvasElement := _canvasElement this;
     _snapSoundElement := _snapSoundElement this;
     _facingMode := _facingMode this;
     _webcamList := l;
     _streamList := _streamList this;
     _selectedDeviceId := _selectedDeviceId this;
     ended := ended this;
     trace := trace this |}.

Definition set_streamList (l : list MediaStream) : Webcam :=
  {| _webcamElement := _webcamElement this;
     _canvasElement := _canvasElement this;
     _snapSoundElement := _snapSoundElement this;
     _facingMode := _facingMode this;
     _webcamList := _webcamList this;
     _streamList := l;
     _selectedDeviceId := _selectedDeviceId this;
     ended := ended this;
     trace := trace this |}.

Definition set_selectedDeviceId (id : string) : Webcam :=
  {| _webcamElement := _webcamElement this;
     _canvasElement := _canvasElement this;
     _snapSoundElement := _snapSoundElement this;
     _facingMode := _facingMode this;
     _webcamList := _webcamList this;
     _streamList := _streamList this;
     _selectedDeviceId := id;
     ended := ended this;
     trace := trace this |}.

Definition set_ended (e : gset MediaStreamTrack) : Webcam :=
  {| _webcamElement := _webcamElement this;
     _canvasElement := _canvasElement this;
     _snapSoundElement := _snapSoundElement this;
     _facingMode := _facingMode this;
     _webcamList := _webcamList this;
     _streamList := _streamList this;
     _selectedDeviceId := _selectedDeviceId this;
     ended := e;
     trace := trace this |}.

(** Record one more platform call. *)
Definition emit (e : Event) : Webcam :=
  {| _webcamElement := _webcamElement this;
     _canvasElement := _canvasElement this;
     _snapSoundElement := _snapSoundElement this;
     _facingMode := _facingMode this;
     _webcamList := _webcamList this;
     _streamList := _streamList this;
     _selectedDeviceId := _selectedDeviceId this;
     ended := ended this;
     trace := trace this ++ [e] |}.

End Assignments.

(** Assignments to attributes of the elements. *)
Definition Video_set_width (w : Z) (v : Video.t) : Video.t :=
  {| Video.width := w; Video.height := Video.height v;
     Video.scrollWidth := Video.scrollWidth v;
     Video.scrollHeight := Video.scrollHeight v;
     Video.srcObject := Video.srcObject v;
     Video.style_transform := Video.style_transform v |}.

Definition Video_set_height (h : Z) (v : Video.t) : Video.t :=
  {| Video.width := Video.width v; Video.height := h;
     Video.scrollWidth := Video.scrollWidth v;
     Video.scrollHeight := Video.scrollHeight v;
     Video.srcObject := Video.srcObject v;
     Video.style_transform := Video.style_transform v |}.

Definition Video_set_srcObject (s : option MediaStream) (v : Video.t) : Video.t :=
  {| Video.width := Video.width v; Video.height := Video.height v;
     Video.scrollWidth := Video.scrollWidth v;
     Video.scrollHeight := Video.scrollHeight v;
     Video.srcObject := s;
     Video.style_transform := Video.style_transform v |}.

Definition Video_set_transform (t : string) (v : Video.t) : Video.t :=
  {| Video.width := Video.width v; Video.height := Video.height v;
     Video.scrollWidth := Video.scrollWidth v;
     Video.scrollHeight := Video.scrollHeight v;
     Video.srcObject := Video.srcObject v;
     Video.style_transform := t |}.

(** [canvas.getContext('2d')]: the canvas with its context bound, or nothing
    when no 2D context can be had. *)
Definition getContext2d (c : Canvas.t) : option Canvas.t :=
  match Canvas.mode c with
  | Canvas.other => None
  | _ => Some {| Canvas.width := Canvas.width c;
                 Canvas.height := Canvas.height c;
                 Canvas.mode := Canvas.context2d |}
  end.

(** *** constructor *)

(** [x || d] on numbers: [0] is the falsy one. *)
Definition or_default (x d : Z) : Z := if decide (x = 0) then d else x.

Definition constructor (videoElement : Video.t) (facingMode : FacingMode)
    (canvasElement : option Canvas.t)
    (snapSoundElement : option HTMLAudioElement) : Webcam :=
  let v := Video_set_width (or_default (Video.width videoElement) 640) videoElement in
  let v := Video_set_height (or_default (Video.height v) (Video.width v * 3 / 4)) v in
  {| _webcamElement := v;
     _canvasElement := canvasElement;
     _snapSoundElement := snapSoundElement;
     _facingMode := facingMode;
     _webcamList := [];
     _streamList := [];
     _selectedDeviceId := "";
     ended := ∅;
     trace := [] |}.

(** *** getVideoInputs *)

(** The body of the [forEach] callback. *)
Definition getVideoInputs_push (this : Webcam) (mediaDevice : MediaDeviceInfo) : Webcam :=
  if decide (kind mediaDevice = videoinput)
  then set_webcamList this (_webcamList this ++ [mediaDevice])
  else this.

Definition getVideoInputs (mediaDevices : list MediaDeviceInfo) (this : Webcam)
    : list MediaDeviceInfo * Webcam :=
  let this := set_webcamList this [] in
  let this := foldl getVideoInputs_push this mediaDevices in
  let this := if decide (length (_webcamList this) = 1%nat)
              then set_facingMode this user else this in
  (_webcamList this, this).

(** *** getMediaConstraints *)

Definition getMediaConstraints (this : Webcam) : MediaConstraints :=
  let videoConstraints : VideoConstraints :=
    {| types.facingMode := None; types.deviceId := None |} in
  let videoConstraints :=
    if decide (_selectedDeviceId this = "")
    then {| types.facingMode := Some (_facingMode this);
            types.deviceId := types.deviceId videoConstraints |}
    else {| types.facingMode := types.facingMode videoConstraints;
            types.deviceId := Some {| types.exact := _selectedDeviceId this |} |} in
  {| types.video := videoConstraints; types.audio := false |}.

(** *** selectCamera *)

(** The condition of the [if] inside the loop. *)
Definition selectCamera_test (fm : FacingMode) (webcam : MediaDeviceInfo) : bool :=
  let label := toLowerCase (label webcam) in
  (bool_decide (fm = user) && includes label "front")
  || (bool_decide (fm = environment) && includes label "back").

(** The [for ... of] loop with its [break]. *)
Fixpoint selectCamera_loop (webcams : list MediaDeviceInfo) (this : Webcam) : Webcam :=
  match webcams with
  | [] => this
  | webcam :: rest =>
      if selectCamera_test (_facingMode this) webcam
      then set_selectedDeviceId this (deviceId webcam)
      else selectCamera_loop rest this
  end.

Definition selectCamera (this : Webcam) : Webcam :=
  selectCamera_loop (_webcamList this) this.

(** *** flip *)

Definition flip (this : Webcam) : Webcam :=
  let this := set_facingMode this
                (if decide (_facingMode this = user) then environment else user) in
  let this := set_webcamElement this (Video_set_transform "" (_webcamElement this)) in
  selectCamera this.

(** ** Promises *)

(** A promise chain, run to completion: it may change the state, and it
    settles.  [≫=] is [.then]; a rejection skips the callbacks that follow
    and reaches the caller unchanged, which is what the
    [.catch(error => reject(error))] at every level of the source does. *)
Definition Promise (A : Type) : Type := Webcam → Settled A * Webcam.

#[global] Instance Promise_ret : MRet Promise :=
  λ A value this, (Fulfilled value, this).

#[global] Instance Promise_bind : MBind Promise :=
  λ A B callback promise this,
    match promise this with
    | (Fulfilled value, this) => callback value this
    | (Rejected reason, this) => (Rejected reason, this)
    end.

(** Run a synchronous piece of a callback. *)
Definition perform (f : Webcam → Webcam) : Promise () :=
  λ this, (Fulfilled (), f this).

(** Read from the object. *)
Definition read {A : Type} (f : Webcam → A) : Promise A :=
  λ this, (Fulfilled (f this), this).

(** [navigator.mediaDevices.getUserMedia(constraints)], settled with what
    the platform answers. *)
Definition navigator_getUserMedia (answer : Settled MediaStream)
    (constraints : MediaConstraints) : Promise MediaStream :=
  λ this, (answer, emit this (getUserMedia constraints)).

(** [navigator.mediaDevices.enumerateDevices()]. *)
Definition navigator_enumerateDevices (answer : Settled (list MediaDeviceInfo))
    : Promise (list MediaDeviceInfo) :=
  λ this, (answer, emit this enumerateDevices).

(** *** stop *)

(** [track.stop()] *)
Definition stop_track (this : Webcam) (track : MediaStreamTrack) : Webcam :=
  set_ended (emit this (track_stop track)) ({[ track ]} ∪ ended this).

Definition stop_stream (this : Webcam) (stream : MediaStream) : Webcam :=
  foldl stop_track this (getTracks stream).

Definition stop (this : Webcam) : Webcam :=
  foldl stop_stream this (_streamList this).

(** *** info *)

Definition info (answer : Settled (list MediaDeviceInfo))
    : Promise (list MediaDeviceInfo) :=
  devices ← navigator_enumerateDevices answer;
  perform (λ this, (getVideoInputs devices this).2) ;;
  read _webcamList.

(** *** stream *)

(** The callback that receives the stream. *)
Definition stream_then (stream : MediaStream) (this : Webcam) : Webcam :=
  let this := set_streamList this (_streamList this ++ [stream]) in
  let this := set_webcamElement this
                (Video_set_srcObject (Some stream) (_webcamElement this)) in
  let this := if decide (_facingMode this = user)
              then set_webcamElement this
                     (Video_set_transform "scale(-1,1)" (_webcamElement this))
              else this in
  emit this video_play.

Definition stream (answer : Settled MediaStream) : Promise FacingMode :=
  constraints ← read getMediaConstraints;
  acquired ← navigator_getUserMedia answer constraints;
  perform (stream_then acquired) ;;
  read _facingMode.

(** *** start *)

(** What the platform answers to the requests of one run of [start], in the
    order in which they are issued. *)
Record Answers : Type := {
  permission : Settled MediaStream;
  devices : Settled (list MediaDeviceInfo);
  media : Settled MediaStream
}.

Definition start (startStream : bool) (platform : Answers) : Promise string :=
  perform stop ;;
  constraints ← read getMediaConstraints;
  acquired ← navigator_getUserMedia (permission platform) constraints;
  perform (λ this, set_streamList this (_streamList this ++ [acquired])) ;;
  info (devices platform) ;;
  perform selectCamera ;;
  if startStream
  then stream (media platform) ;;
       facingMode ← read _facingMode;
       mret (FacingMode_string facingMode)
  else read _selectedDeviceId.

(** *** snap *)

Definition snap (dataURL : string) (this : Webcam) : Completion string * Webcam :=
  let context :=
    match _canvasElement this with
    | Some canvas => getContext2d canvas
    | None => None
    end in
  match _canvasElement this, context with
  | Some _, Some canvas =>
      let this := set_canvasElement this (Some canvas) in
      let this := match _snapSoundElement this with
                  | Some _ => emit this audio_play
                  | None => this
                  end in
      let canvas := {| Canvas.width := Canvas.width canvas;
                       Canvas.height := Video.scrollHeight (_webcamElement this);
                       Canvas.mode := Canvas.mode canvas |} in
      let canvas := {| Canvas.width := Video.scrollWidth (_webcamElement this);
                       Canvas.height := Canvas.height canvas;
                       Canvas.mode := Canvas.mode canvas |} in
      let this := set_canvasElement this (Some canvas) in
      let this := if decide (_facingMode this = user)
                  then emit (emit this (context_translate (Canvas.width canvas) 0))
                            (context_scale (-1) 1)
                  else this in
      let this := emit this (context_clearRect 0 0 (Canvas.width canvas)
                                                   (Canvas.height canvas)) in
      let this := emit this (context_drawImage 0 0 (Canvas.width canvas)
                                                   (Canvas.height canvas)) in
      (Return dataURL, emit this (canvas_toDataURL "image/png"))
  | _, _ => (Throw {| message := "Canvas element is missing." |}, this)
  end.

(** ** Sessions: sequences of calls on one object *)

(** One call of a method that may change the state, with what the platform
    answers during it. *)
Inductive Call : Type :=
| call_setFacingMode (facingMode : FacingMode)
| call_getVideoInputs (mediaDevices : list MediaDeviceInfo)
| call_selectCamera
| call_flip
| call_start (startStream : bool) (platform : Answers)
| call_info (answer : Settled (list MediaDeviceInfo))
| call_stream (answer : Settled MediaStream)
| call_stop
| call_snap (dataURL : string).

Definition setFacingMode (facingMode : FacingMode) (this : Webcam) : Webcam :=
  set_facingMode this facingMode.

Definition call (c : Call) (this : Webcam) : Webcam :=
  match c with
  | call_setFacingMode facingMode => setFacingMode facingMode this
  | call_getVideoInputs mediaDevices => (getVideoInputs mediaDevices this).2
  | call_selectCamera => selectCamera this
  | call_flip => flip this
  | call_start startStream platform => (start startStream platform this).2
  | call_info answer => (info answer this).2
  | call_stream answer => (stream answer this).2
  | call_stop => stop this
  | call_snap dataURL => (snap dataURL this).2
  end.

Definition calls (cs : list Call) (this : Webcam) : Webcam :=
  foldl (λ this c, call c this) this cs.

(** The calls that run [selectCamera]. *)
Definition selects (c : Call) : bool :=
  match c with
  | call_selectCamera | call_flip | call_start _ _ => true
  | _ => false
  end.

(** *** The callbacks of the promise chains

    A promise chain does not run in one piece: each callback is a task of
    its own, and between two tasks the caller may call any method.  These
    are the pieces, cut where the source waits for the platform. *)

(** The executor of [start], up to the request for camera access. *)
Definition start_executor (this : Webcam) : Webcam :=
  let this := stop this in
  emit this (getUserMedia (getMediaConstraints this)).

(** [stream => { this._streamList.push(stream); this.info() ... }], up to the
    request that [info] issues. *)
Definition start_then_stream (stream : MediaStream) (this : Webcam) : Webcam :=
  let this := set_streamList this (_streamList this ++ [stream]) in
  emit this enumerateDevices.

(** The executor of [info]. *)
Definition info_executor (this : Webcam) : Webcam :=
  emit this enumerateDevices.

(** [devices => { this.getVideoInputs(devices); resolve(this._webcamList) }] *)
Definition info_then (devices : list MediaDeviceInfo) (this : Webcam) : Webcam :=
  (getVideoInputs devices this).2.

(** [() => { this.selectCamera(); if (startStream) { this.stream() ... } else
    { resolve(this._selectedDeviceId) } }], up to the request that [stream]
    issues. *)
Definition start_then_info (startStream : bool) (this : Webcam) : Webcam :=
  let this := selectCamera this in
  if startStream
  then emit this (getUserMedia (getMediaConstraints this))
  else this.

(** The executor of [stream]. *)
Definition stream_executor (this : Webcam) : Webcam :=
  emit this (getUserMedia (getMediaConstraints this)).

Inductive Task : Type :=
| task_call (c : Call)
| task_start_executor
| task_start_then_stream (stream : MediaStream)
| task_info_executor
| task_info_then (devices : list MediaDeviceInfo)
| task_start_then_info (startStream : bool)
| task_stream_executor
| task_stream_then (stream : MediaStream).

Definition task (t : Task) (this : Webcam) : Webcam :=
  match t with
  | task_call c => call c this
  | task_start_executor => start_executor this
  | task_start_then_stream stream => start_then_stream stream this
  | task_info_executor => info_executor this
  | task_info_then devices => info_then devices this
  | task_start_then_info startStream => start_then_info startStream this
  | task_stream_executor => stream_executor this
  | task_stream_then stream => stream_then stream this
  end.

Definition tasks (ts : list Task) (this : Webcam) : Webcam :=
  foldl (λ this t, task t this) this ts.

(** The tasks that run [selectCamera]. *)
Definition task_selects (t : Task) : bool :=
  match t with
  | task_call c => selects c
  | task_start_then_info _ => true
  | _ => false
  end.

(** The tasks that one run of [start] is made of, given what the platform
    answers. *)
Definition start_tasks (startStream : bool) (platform : Answers) : list Task :=
  task_start_executor ::
  match permission platform with
  | Rejected _ => []
  | Fulfilled permitted =>
      task_start_then_stream permitted ::
      match devices platform with
      | Rejected _ => []
      | Fulfilled mediaDevices =>
          task_info_then mediaDevices ::
          task_start_then_info startStream ::
          match startStream, media platform with
          | true, Fulfilled acquired => [task_stream_then acquired]
          | _, _ => []
          end
      end
  end.

(** The entry the scan of [selectCamera] stops at, if any. *)
Definition first_match (this : Webcam) : option MediaDeviceInfo :=
  List.find (selectCamera_test (_facingMode this)) (_webcamList this).

(** The first video input with a matching label decides what [selectCamera]
    stores; with no match the stored identifier stays. *)
Definition selected_after (fm : FacingMode) (webcams : list MediaDeviceInfo)
    (selected : string) : string :=
  match List.find (selectCamera_test fm) webcams with
  | Some webcam => deviceId webcam
  | None => selected
  end.

(** What the test of the loop means: the lower-cased label contains the word
    that goes with the facing mode. *)
Definition label_matches (fm : FacingMode) (webcam : MediaDeviceInfo) : Prop :=
  (fm = user
   ∧ ∃ before after, toLowerCase (label webcam) = before +:+ "front" +:+ after)
  ∨ (fm = environment
     ∧ ∃ before after, toLowerCase (label webcam) = before +:+ "back" +:+ after).

(** The tracks [stop] calls [stop()] on, in the order of the two loops. *)
Definition tracks_of (streams : list MediaStream) : list MediaStreamTrack :=
  concat (getTracks <$> streams).

(** The state once [stop()] has been called on each of [tracks], in order. *)
Definition halted (tracks : list MediaStreamTrack) (this : Webcam) : Webcam :=
  {| _webcamElement := _webcamElement this;
     _canvasElement := _canvasElement this;
     _snapSoundElement := _snapSoundElement this;
     _facingMode := _facingMode this;
     _webcamList := _webcamList this;
     _streamList := _streamList this;
     _selectedDeviceId := _selectedDeviceId this;
     ended := list_to_set tracks ∪ ended this;
     trace := trace this ++ (track_stop <$> tracks) |}.

(** [snap] finds no canvas, or a canvas that yields no 2D context. *)
Definition canvas_missing (this : Webcam) : Prop :=
  match _canvasElement this with
  | None => True
  | Some canvas => getContext2d canvas = None
  end.

(** *** selectCamera, for the platform's [toLowerCase]

    The same test, loop and method with the lower-casing function as a
    parameter [lower]; with [toLowerCase] for [lower] they are
    [selectCamera_test], [selectCamera_loop] and [selectCamera]. *)

Definition selectCamera_test_with (lower : string → string) (fm : FacingMode)
    (webcam : MediaDeviceInfo) : bool :=
  let label := lower (label webcam) in
  (bool_decide (fm = user) && includes label "front")
  || (bool_decide (fm = environment) && includes label "back").

Fixpoint selectCamera_loop_with (lower : string → string)
    (webcams : list MediaDeviceInfo) (this : Webcam) : Webcam :=
  match webcams with
  | [] => this
  | webcam :: rest =>
      if selectCamera_test_with lower (_facingMode this) webcam
      then set_selectedDeviceId this (deviceId webcam)
      else selectCamera_loop_with lower rest this
  end.

Definition selectCamera_with (lower : string → string) (this : Webcam) : Webcam :=
  selectCamera_loop_with lower (_webcamList this) this.

(** The lower-cased label contains the word that goes with the facing
    mode, [lower] being the function that lower-cases. *)
Definition label_matches_with (lower : string → string) (fm : FacingMode)
    (webcam : MediaDeviceInfo) : Prop :=
  (fm = user
   ∧ ∃ before after, lower (label webcam) = before +:+ "front" +:+ after)
  ∨ (fm = environment
     ∧ ∃ before after, lower (label webcam) = before +:+ "back" +:+ after).

(** [c] is the character [k], or the capital letter of the small letter
    [k]. *)
Definition same_letter (c k : ascii) : Prop :=
  c = k
  ∨ ((97 ≤ N_of_ascii k)%N ∧ (N_of_ascii k ≤ 122)%N
     ∧ (N_of_ascii c + 32 = N_of_ascii k)%N).

(** [word] is [k] up to the case of its letters. *)
Fixpoint same_word (word k : string) : Prop :=
  match word, k with
  | EmptyString, EmptyString => True
  | String c word', String k0 k' => same_letter c k0 ∧ same_word word' k'
  | _, _ => False
  end.

(** The tasks that run [getVideoInputs]. *)
Definition enumerates (t : Task) : bool :=
  match t with
  | task_call (call_getVideoInputs _)
  | task_call (call_info _)
  | task_call (call_start _ _)
  | task_info_then _ => true
  | _ => false
  end.

(** *** The accessors *)

Definition getFacingMode (this : Webcam) : FacingMode := _facingMode this.

Definition getWebcamList (this : Webcam) : list MediaDeviceInfo :=
  _webcamList this.

Definition getWebcamCount (this : Webcam) : nat := length (_webcamList this).

Definition getSelectedDeviceId (this : Webcam) : string :=
  _selectedDeviceId this.

(** *** What a task may do to the streams

    [this'] holds the streams of [this] and maybe more, shows the stream it
    showed or one of the new ones, and has halted and called at least what
    [this] had. *)
Definition extends (this this' : Webcam) : Prop :=
  ∃ acquired : list MediaStream,
    _streamList this' = _streamList this ++ acquired
    ∧ (Video.srcObject (_webcamElement this')
       = Video.srcObject (_webcamElement this)
       ∨ ∃ stream, Video.srcObject (_webcamElement this') = Some stream
                   ∧ stream ∈ acquired)
    ∧ ended this ⊆ ended this'
    ∧ trace this `prefix_of` trace this'.

(** The stream that the video element shows is one of the stream list. *)
Definition shown_is_listed (this : Webcam) : Prop :=
  ∀ stream, Video.srcObject (_webcamElement this) = Some stream →
            stream ∈ _streamList this.

(** The platform grants every request of a run of [start]. *)
Definition granted (platform : Answers) : Prop :=
  match permission platform, devices platform, media platform with
  | Fulfilled _, Fulfilled _, Fulfilled _ => True
  | _, _, _ => False
  end.

(** *** A session used in the examples below *)

Definition example_video : Video.t :=
  {| Video.width := 0; Video.height := 0;
     Video.scrollWidth := 640; Video.scrollHeight := 480;
     Video.srcObject := None; Video.style_transform := "" |}.

Definition example_devices : list MediaDeviceInfo :=
  [ {| deviceId := "m1"; groupId := "g1"; kind := audioinput;
       label := "Front Microphone" |};
    {| deviceId := "b1"; groupId := "g1"; kind := videoinput;
       label := "Back Camera" |};
    {| deviceId := "w1"; groupId := "g2"; kind := videoinput;
       label := "Integrated Webcam" |} ].

Definition example_first_run : Answers :=
  {| permission := Fulfilled {| getTracks := [1%nat] |};
     devices := Fulfilled example_devices;
     media := Fulfilled {| getTracks := [2%nat] |} |}.

Definition example_second_run : Answers :=
  {| permission := Fulfilled {| getTracks := [3%nat] |};
     devices := Fulfilled example_devices;
     media := Fulfilled {| getTracks := [4%nat] |} |}.

(** A rear-facing session is started, then the caller asks for the front
    camera. *)
Definition example_session : Webcam :=
  calls [call_start true example_first_run; call_setFacingMode user]
    (constructor example_video environment None None).

(** A platform that lists a front camera without an identifier. *)
Definition example_unnamed_devices : list MediaDeviceInfo :=
  [ {| deviceId := "b1"; groupId := "g1"; kind := videoinput;
       label := "Back Camera" |};
    {| deviceId := ""; groupId := "g2"; kind := videoinput;
       label := "Front Camera" |} ].

(** The rear camera of that platform has been selected. *)
Definition example_rear_selected : Webcam :=
  tasks [task_call (call_getVideoInputs example_unnamed_devices);
         task_call call_selectCamera]
    (constructor example_video environment None None).

(** ** Properties *)

(** *** Records and strings *)

Lemma Webcam_eta (this : Webcam) :
  {| _webcamElement := _webcamElement this;
     _canvasElement := _canvasElement this;
     _snapSoundElement := _snapSoundElement this;
     _facingMode := _facingMode this;
     _webcamList := _webcamList this;
     _streamList := _streamList this;
     _selectedDeviceId := _selectedDeviceId this;
     ended := ended this;
     trace := trace this |} = this.
Proof. by destruct this. Qed.

Lemma append_cons (c : ascii) (s t : string) :
  String c s +:+ t = String c (s +:+ t).
Proof. reflexivity. Qed.

Lemma prefix_spec (sub s : string) :
  String.prefix sub s = true ↔ ∃ rest, s = sub +:+ rest.
Proof.
  revert sub. induction s as [|b s IH]; intros [|a sub]; simpl.
  - split; [by exists "" | done].
  - split; [done | intros [rest ?]; discriminate].
  - split; [intros _; by eexists | done].
  - destruct (ascii_dec a b) as [->|Hne].
    + rewrite IH. split; intros [rest H]; exists rest.
      * by rewrite H.
      * rewrite append_cons in H. congruence.
    + split; [done | intros [rest H]; rewrite append_cons in H; congruence].
Qed.

(** [includes] is substring containment. *)
Lemma includes_spec (s sub : string) :
  includes s sub = true ↔ ∃ before after, s = before +:+ sub +:+ after.
Proof.
  induction s as [|c s IH]; cbn [includes].
  - rewrite orb_false_r, prefix_spec. split.
    + intros [rest ->]. by exists "", rest.
    + intros (before & after & H). destruct before as [|c' before].
      * by exists after.
      * rewrite append_cons in H. discriminate.
  - rewrite orb_true_iff, prefix_spec, IH. split.
    + intros [[rest ->] | (before & after & ->)].
      * by exists "", rest.
      * by exists (String c before), after.
    + intros (before & after & H). destruct before as [|c' before].
      * left. by exists after.
      * right. rewrite append_cons in H. injection H as -> ->.
        by exists before, after.
Qed.

Lemma toLowerCase_app (s t : string) :
  toLowerCase (s +:+ t) = toLowerCase s +:+ toLowerCase t.
Proof.
  induction s as [|c s IH]; [done|].
  rewrite append_cons. cbn [toLowerCase]. by rewrite IH, append_cons.
Qed.

Lemma lower_ascii_same_letter (c k : ascii) :
  same_letter c k → lower_ascii k = k → lower_ascii c = k.
Proof.
  intros [->|(Hlow & Hhigh & Hcapital)] Hsmall; [done|].
  unfold lower_ascii. cbn zeta.
  assert (Hrange : ((65 <=? N_of_ascii c) && (N_of_ascii c <=? 90))%N = true).
  { apply andb_true_iff. split; apply N.leb_le; lia. }
  by rewrite Hrange, Hcapital, ascii_N_embedding.
Qed.

(** A word that is [k] up to case lower-cases to [k], when [k] has no
    capital letter. *)
Lemma toLowerCase_same_word (word k : string) :
  same_word word k → toLowerCase k = k → toLowerCase word = k.
Proof.
  revert k. induction word as [|c word IH]; intros [|k0 k]; cbn; try done.
  intros [Hletter Hword] Hsmall. injection Hsmall as Hk0 Hk.
  by rewrite (lower_ascii_same_letter c k0), (IH k).
Qed.

(** *** getVideoInputs *)

Lemma getVideoInputs_loop (mediaDevices : list MediaDeviceInfo) (this : Webcam) :
  foldl getVideoInputs_push this mediaDevices
  = set_webcamList this
      (_webcamList this ++ filter (λ d, kind d = videoinput) mediaDevices).
Proof.
  revert this. induction mediaDevices as [|d ds IH]; intros this; simpl.
  - rewrite app_nil_r. unfold set_webcamList. by rewrite Webcam_eta.
  - rewrite IH. unfold getVideoInputs_push. rewrite filter_cons.
    destruct (decide (kind d = videoinput)); simpl; [|done].
    unfold set_webcamList; simpl. by rewrite <- app_assoc.
Qed.

Lemma getVideoInputs_state (mediaDevices : list MediaDeviceInfo) (this : Webcam) :
  let webcams := filter (λ d, kind d = videoinput) mediaDevices in
  (getVideoInputs mediaDevices this).2
  = set_facingMode (set_webcamList this webcams)
      (if decide (length webcams = 1%nat) then user else _facingMode this).
Proof.
  unfold getVideoInputs. simpl. rewrite getVideoInputs_loop. simpl.
  destruct (decide _); [done|].
  unfold set_facingMode, set_webcamList; simpl. done.
Qed.

(** C1.  For every device list, [getVideoInputs] replaces the stored camera
    list with exactly the entries of kind ["videoinput"], in their original
    order, returns that list, and sets the facing mode to ["user"] when the
    filtered list has exactly one entry, whatever the mode was. *)
Theorem getVideoInputs_filters (mediaDevices : list MediaDeviceInfo) (this : Webcam) :
  let webcams := filter (λ d, kind d = videoinput) mediaDevices in
  _webcamList (getVideoInputs mediaDevices this).2 = webcams
  ∧ (getVideoInputs mediaDevices this).1 = webcams
  ∧ (∀ d, d ∈ webcams ↔ d ∈ mediaDevices ∧ kind d = videoinput)
  ∧ webcams `sublist_of` mediaDevices
  ∧ (length webcams = 1%nat →
     _facingMode (getVideoInputs mediaDevices this).2 = user).
Proof.
  intros webcams.
  assert (Hlist : _webcamList (getVideoInputs mediaDevices this).2 = webcams).
  { rewrite getVideoInputs_state. by destruct (decide _). }
  split; [done|]. split.
  { rewrite <- Hlist. unfold getVideoInputs; simpl. by destruct (decide _). }
  split; [intros d; unfold webcams; rewrite list_elem_of_filter; tauto|].
  split; [apply sublist_filter|].
  intros Hone. rewrite getVideoInputs_state. fold webcams.
  by rewrite decide_True.
Qed.

(** C10.  When the number of video inputs is not exactly one,
    [getVideoInputs] leaves the facing mode as it was; and for every device
    list it leaves the selected identifier, the stream list, the elements
    and the platform untouched. *)
Theorem getVideoInputs_frame (mediaDevices : list MediaDeviceInfo) (this : Webcam) :
  let webcams := filter (λ d, kind d = videoinput) mediaDevices in
  let this' := (getVideoInputs mediaDevices this).2 in
  (length webcams ≠ 1%nat → _facingMode this' = _facingMode this)
  ∧ _selectedDeviceId this' = _selectedDeviceId this
  ∧ _streamList this' = _streamList this
  ∧ _webcamElement this' = _webcamElement this
  ∧ _canvasElement this' = _canvasElement this
  ∧ _snapSoundElement this' = _snapSoundElement this
  ∧ ended this' = ended this
  ∧ trace this' = trace this.
Proof.
  intros webcams this'. subst this'. rewrite getVideoInputs_state.
  fold webcams. split; [|done].
  intros Hne. by rewrite decide_False.
Qed.

(** *** getMediaConstraints *)

(** C2.  The request is keyed by the facing mode when no device is selected
    and by the exact device identifier otherwise; audio is off in both
    cases, and exactly one of the two keys is present. *)
Theorem getMediaConstraints_keys (this : Webcam) :
  let constraints := getMediaConstraints this in
  (_selectedDeviceId this = "" →
   types.video constraints
   = {| types.facingMode := Some (_facingMode this); types.deviceId := None |})
  ∧ (_selectedDeviceId this ≠ "" →
     types.video constraints
     = {| types.facingMode := None;
          types.deviceId := Some {| types.exact := _selectedDeviceId this |} |})
  ∧ types.audio constraints = false
  ∧ (types.facingMode (types.video constraints) = None
     ↔ types.deviceId (types.video constraints) ≠ None).
Proof.
  unfold getMediaConstraints.
  destruct (decide (_selectedDeviceId this = "")) as [Heq|Hne]; simpl.
  - rewrite Heq. repeat split; by intros.
  - repeat split; by intros.
Qed.

(** *** selectCamera *)

Lemma selectCamera_test_spec (fm : FacingMode) (webcam : MediaDeviceInfo) :
  selectCamera_test fm webcam = true ↔ label_matches fm webcam.
Proof.
  unfold selectCamera_test, label_matches.
  rewrite orb_true_iff, !andb_true_iff, !bool_decide_eq_true, !includes_spec.
  done.
Qed.

Lemma selectCamera_test_false (fm : FacingMode) (webcam : MediaDeviceInfo) :
  ¬ label_matches fm webcam → selectCamera_test fm webcam = false.
Proof.
  rewrite <- selectCamera_test_spec. by destruct (selectCamera_test fm webcam).
Qed.

Lemma find_first (f : MediaDeviceInfo → bool) (before after : list MediaDeviceInfo)
    (webcam : MediaDeviceInfo) :
  (∀ d, d ∈ before → f d = false) → f webcam = true →
  List.find f (before ++ webcam :: after) = Some webcam.
Proof.
  intros Hbefore Hhit. induction before as [|d before IH]; simpl.
  - by rewrite Hhit.
  - rewrite (Hbefore d) by apply list_elem_of_here.
    apply IH. intros d' Hd'. apply Hbefore. by apply list_elem_of_further.
Qed.

Lemma find_nowhere (f : MediaDeviceInfo → bool) (webcams : list MediaDeviceInfo) :
  (∀ d, d ∈ webcams → f d = false) → List.find f webcams = None.
Proof.
  intros Hnone. induction webcams as [|d webcams IH]; simpl; [done|].
  rewrite (Hnone d) by apply list_elem_of_here.
  apply IH. intros d' Hd'. apply Hnone. by apply list_elem_of_further.
Qed.

(** The loop with its [break] stores the identifier of the first hit. *)
Lemma selectCamera_loop_spec (webcams : list MediaDeviceInfo) (this : Webcam) :
  selectCamera_loop webcams this
  = set_selectedDeviceId this
      (selected_after (_facingMode this) webcams (_selectedDeviceId this)).
Proof.
  unfold selected_after.
  induction webcams as [|webcam rest IH]; simpl.
  - unfold set_selectedDeviceId. by rewrite Webcam_eta.
  - by destruct (selectCamera_test (_facingMode this) webcam).
Qed.

Lemma selectCamera_spec (this : Webcam) :
  selectCamera this
  = set_selectedDeviceId this
      (selected_after (_facingMode this) (_webcamList this) (_selectedDeviceId this)).
Proof. apply selectCamera_loop_spec. Qed.

Lemma selectCamera_test_with_spec (lower : string → string) (fm : FacingMode)
    (webcam : MediaDeviceInfo) :
  selectCamera_test_with lower fm webcam = true
  ↔ label_matches_with lower fm webcam.
Proof.
  unfold selectCamera_test_with, label_matches_with.
  rewrite orb_true_iff, !andb_true_iff, !bool_decide_eq_true, !includes_spec.
  done.
Qed.

Lemma selectCamera_test_with_false (lower : string → string) (fm : FacingMode)
    (webcam : MediaDeviceInfo) :
  ¬ label_matches_with lower fm webcam →
  selectCamera_test_with lower fm webcam = false.
Proof.
  rewrite <- selectCamera_test_with_spec.
  by destruct (selectCamera_test_with lower fm webcam).
Qed.

Lemma selectCamera_loop_with_spec (lower : string → string)
    (webcams : list MediaDeviceInfo) (this : Webcam) :
  selectCamera_loop_with lower webcams this
  = set_selectedDeviceId this
      (match List.find (selectCamera_test_with lower (_facingMode this)) webcams
       with
       | Some webcam => deviceId webcam
       | None => _selectedDeviceId this
       end).
Proof.
  induction webcams as [|webcam rest IH]; simpl.
  - unfold set_selectedDeviceId. by rewrite Webcam_eta.
  - by destruct (selectCamera_test_with lower (_facingMode this) webcam).
Qed.

Lemma selectCamera_loop_with_toLowerCase (webcams : list MediaDeviceInfo)
    (this : Webcam) :
  selectCamera_loop_with toLowerCase webcams this
  = selectCamera_loop webcams this.
Proof. induction webcams as [|webcam rest IH]; simpl; by rewrite ?IH. Qed.

(** C3.  [selectCamera] goes through the stored list in order and stores the
    device identifier of the first entry whose lower-cased label contains
    ["front"] (facing mode ["user"]) or ["back"] (facing mode
    ["environment"]); entries after it are not looked at.  With no such
    entry the selected identifier keeps its value.  No other field changes.
    This holds for the platform's lower-casing function, whatever it does to
    a label ([lower]).  On ASCII letters it folds capitals, so that a label
    which contains the word in any mix of capital and small letters is
    matched. *)
Theorem selectCamera_first_match (lower : string → string) (this : Webcam) :
  (∀ (before : list MediaDeviceInfo) webcam after,
     _webcamList this = (before ++ webcam :: after)%list →
     (∀ d, d ∈ before → ¬ label_matches_with lower (_facingMode this) d) →
     label_matches_with lower (_facingMode this) webcam →
     _selectedDeviceId (selectCamera_with lower this) = deviceId webcam)
  ∧ ((∀ d, d ∈ _webcamList this →
           ¬ label_matches_with lower (_facingMode this) d) →
     _selectedDeviceId (selectCamera_with lower this)
     = _selectedDeviceId this)
  ∧ (_facingMode (selectCamera_with lower this) = _facingMode this
     ∧ _webcamList (selectCamera_with lower this) = _webcamList this
     ∧ _streamList (selectCamera_with lower this) = _streamList this
     ∧ _webcamElement (selectCamera_with lower this) = _webcamElement this
     ∧ _canvasElement (selectCamera_with lower this) = _canvasElement this
     ∧ _snapSoundElement (selectCamera_with lower this)
       = _snapSoundElement this
     ∧ ended (selectCamera_with lower this) = ended this
     ∧ trace (selectCamera_with lower this) = trace this)
  ∧ selectCamera_with toLowerCase this = selectCamera this
  ∧ (∀ fm webcam before word after,
       label webcam = before +:+ word +:+ after →
       same_word word
         (match fm with user => "front" | environment => "back" end) →
       selectCamera_test_with toLowerCase fm webcam = true
       ∧ selectCamera_test fm webcam = true).
Proof.
  unfold selectCamera_with. rewrite selectCamera_loop_with_spec.
  cbn [set_selectedDeviceId _selectedDeviceId _facingMode _webcamList
       _streamList _webcamElement _canvasElement _snapSoundElement ended trace].
  split; [|split; [|split; [done|split]]].
  - intros before webcam after -> Hbefore Hhit.
    rewrite (find_first _ before after webcam); [done| |].
    + intros d Hd. by apply selectCamera_test_with_false, Hbefore.
    + by apply selectCamera_test_with_spec.
  - intros Hnone. rewrite find_nowhere; [done|].
    intros d Hd. by apply selectCamera_test_with_false, Hnone.
  - apply selectCamera_loop_with_toLowerCase.
  - intros fm webcam before word after Hlabel Hword.
    assert (Hlower : toLowerCase word
              = match fm with user => "front" | environment => "back" end).
    { apply toLowerCase_same_word; [done | by destruct fm]. }
    assert (Htest : selectCamera_test fm webcam = true).
    { apply selectCamera_test_spec. unfold label_matches.
      rewrite Hlabel, !toLowerCase_app, Hlower.
      destruct fm; [right | left]; (split; [done|]);
        by exists (toLowerCase before), (toLowerCase after). }
    done.
Qed.

(** *** flip *)

(** C4.  [flip] swaps the facing mode, clears the transform of the video
    element (its style transform is the empty string afterwards, and the
    bound stream and the dimensions stay), and selects again from the list
    that is already stored.  It issues no platform call (no enumeration, no
    media request, no [track.stop()]), and the stream list stays. *)
Theorem flip_toggles (this : Webcam) :
  (_facingMode this = user → _facingMode (flip this) = environment)
  ∧ (_facingMode this = environment → _facingMode (flip this) = user)
  ∧ Video.style_transform (_webcamElement (flip this)) = ""
  ∧ Video.srcObject (_webcamElement (flip this))
    = Video.srcObject (_webcamElement this)
  ∧ Video.width (_webcamElement (flip this))
    = Video.width (_webcamElement this)
  ∧ Video.height (_webcamElement (flip this))
    = Video.height (_webcamElement this)
  ∧ Video.scrollWidth (_webcamElement (flip this))
    = Video.scrollWidth (_webcamElement this)
  ∧ Video.scrollHeight (_webcamElement (flip this))
    = Video.scrollHeight (_webcamElement this)
  ∧ _webcamElement (flip this) = Video_set_transform "" (_webcamElement this)
  ∧ _selectedDeviceId (flip this)
    = selected_after (_facingMode (flip this)) (_webcamList this)
        (_selectedDeviceId this)
  ∧ _webcamList (flip this) = _webcamList this
  ∧ _streamList (flip this) = _streamList this
  ∧ _canvasElement (flip this) = _canvasElement this
  ∧ _snapSoundElement (flip this) = _snapSoundElement this
  ∧ ended (flip this) = ended this
  ∧ trace (flip this) = trace this.
Proof.
  unfold flip. rewrite selectCamera_spec. simpl.
  destruct (_facingMode this); simpl; repeat split; by intros.
Qed.

(** *** stop *)

Lemma halted_nil (this : Webcam) : halted [] this = this.
Proof.
  unfold halted; simpl. rewrite app_nil_r, (left_id_L ∅ (∪)).
  apply Webcam_eta.
Qed.

Lemma halted_app (tracks tracks' : list MediaStreamTrack) (this : Webcam) :
  halted tracks' (halted tracks this) = halted (tracks ++ tracks') this.
Proof.
  unfold halted; simpl. f_equal.
  - rewrite list_to_set_app_L, (assoc_L (∪)). f_equal. apply (comm_L (∪)).
  - by rewrite fmap_app, app_assoc.
Qed.

Lemma stop_track_halted (this : Webcam) (track : MediaStreamTrack) :
  stop_track this track = halted [track] this.
Proof.
  unfold stop_track, halted, set_ended, emit; simpl. f_equal.
  by rewrite (right_id_L ∅ (∪)).
Qed.

Lemma stop_stream_halted (stream : MediaStream) (this : Webcam) :
  stop_stream this stream = halted (getTracks stream) this.
Proof.
  unfold stop_stream. generalize (getTracks stream) as tracks.
  intros tracks. revert this.
  induction tracks as [|track tracks IH]; intros this; simpl.
  - by rewrite halted_nil.
  - by rewrite IH, stop_track_halted, halted_app.
Qed.

Lemma stop_halted (this : Webcam) :
  stop this = halted (tracks_of (_streamList this)) this.
Proof.
  unfold stop. generalize (_streamList this) as streams.
  intros streams. revert this.
  induction streams as [|stream streams IH]; intros this; simpl.
  - by rewrite halted_nil.
  - rewrite IH, stop_stream_halted, halted_app. done.
Qed.

Lemma elem_of_tracks_of (streams : list MediaStream) (track : MediaStreamTrack) :
  track ∈ tracks_of streams
  ↔ ∃ stream, stream ∈ streams ∧ track ∈ getTracks stream.
Proof.
  unfold tracks_of. induction streams as [|s streams IH]; simpl.
  - split; [by intros ?%elem_of_nil | by intros (? & ?%elem_of_nil & _)].
  - rewrite elem_of_app, IH. split.
    + intros [Hhere | (stream & Hin & Htrack)].
      * exists s. split; [apply list_elem_of_here | done].
      * exists stream. split; [by apply list_elem_of_further | done].
    + intros (stream & Hin & Htrack).
      apply elem_of_cons in Hin as [-> | Hin]; [by left|].
      right. by exists stream.
Qed.

(** C8.  [stop] halts every track of every stream of the stream list, and
    that is all it does: the stream list keeps every handle, and the facing
    mode, the camera list, the selected identifier and the elements stay.
    A second [stop] with no stream acquired in between halts no further
    track. *)
Theorem stop_halts_every_track (this : Webcam) :
  (∀ stream track,
     stream ∈ _streamList this → track ∈ getTracks stream →
     track ∈ ended (stop this))
  ∧ ended (stop this) = list_to_set (tracks_of (_streamList this)) ∪ ended this
  ∧ trace (stop this)
    = (trace this ++ (track_stop <$> tracks_of (_streamList this)))%list
  ∧ _streamList (stop this) = _streamList this
  ∧ _facingMode (stop this) = _facingMode this
  ∧ _webcamList (stop this) = _webcamList this
  ∧ _selectedDeviceId (stop this) = _selectedDeviceId this
  ∧ _webcamElement (stop this) = _webcamElement this
  ∧ _canvasElement (stop this) = _canvasElement this
  ∧ _snapSoundElement (stop this) = _snapSoundElement this
  ∧ ended (stop (stop this)) = ended (stop this).
Proof.
  rewrite !stop_halted. simpl. split; [|repeat split; try done].
  - intros stream track Hstream Htrack.
    apply elem_of_union_l, elem_of_list_to_set, elem_of_tracks_of.
    by exists stream.
  - by rewrite (assoc_L (∪)), (idemp_L (∪)).
Qed.

(** *** snap *)

(** C5.  Without a canvas, or with a canvas that yields no 2D context,
    [snap] throws an error whose message is ["Canvas element is missing."],
    and the state is the one before the call: no sound, no resizing, no
    drawing call. *)
Theorem snap_canvas_missing (dataURL : string) (this : Webcam) :
  canvas_missing this →
  snap dataURL this
  = (Throw {| message := "Canvas element is missing." |}, this).
Proof.
  unfold canvas_missing, snap.
  destruct (_canvasElement this) as [canvas|]; [|done].
  by intros ->.
Qed.

(** A canvas that is bound to a context of another kind. *)
Lemma snap_canvas_missing_witness :
  canvas_missing
    (constructor example_video user
       (Some {| Canvas.width := 300; Canvas.height := 150;
                Canvas.mode := Canvas.other |})
       (Some Audio))
  ∧ snap "data:image/png;base64,AAAA"
      (constructor example_video user
         (Some {| Canvas.width := 300; Canvas.height := 150;
                  Canvas.mode := Canvas.other |})
         (Some Audio))
    = (Throw {| message := "Canvas element is missing." |},
       constructor example_video user
         (Some {| Canvas.width := 300; Canvas.height := 150;
                  Canvas.mode := Canvas.other |})
         (Some Audio)).
Proof.
  split; [reflexivity|].
  apply (snap_canvas_missing "data:image/png;base64,AAAA"). reflexivity.
Defined.

(** *** stream *)

(** C7.  When the platform grants the stream, [stream] appends the handle
    to the stream list, binds it to the video element, sets the mirroring
    transform exactly when the facing mode is ["user"] (otherwise the
    transform is not written), starts playback, and resolves with the facing
    mode.  The request carries the constraints of the state at the call. *)
Theorem stream_binds_and_plays (acquired : MediaStream) (this : Webcam) :
  let this' := (stream (Fulfilled acquired) this).2 in
  (stream (Fulfilled acquired) this).1 = Fulfilled (_facingMode this)
  ∧ _streamList this' = (_streamList this ++ [acquired])%list
  ∧ Video.srcObject (_webcamElement this') = Some acquired
  ∧ (_facingMode this = user →
     Video.style_transform (_webcamElement this') = "scale(-1,1)")
  ∧ (_facingMode this ≠ user →
     Video.style_transform (_webcamElement this')
     = Video.style_transform (_webcamElement this))
  ∧ trace this'
    = (trace this ++ [getUserMedia (getMediaConstraints this); video_play])%list
  ∧ _facingMode this' = _facingMode this
  ∧ _webcamList this' = _webcamList this
  ∧ _selectedDeviceId this' = _selectedDeviceId this
  ∧ ended this' = ended this
  ∧ _canvasElement this' = _canvasElement this
  ∧ _snapSoundElement this' = _snapSoundElement this.
Proof.
  unfold stream, stream_then, navigator_getUserMedia, perform, read.
  unfold mbind, Promise_bind. simpl.
  destruct (decide (_facingMode this = user)) as [Huser|Hother]; simpl;
    rewrite <- ?app_assoc; repeat split; by intros.
Qed.

(** *** start *)

(** The promise chain of [start], stage by stage. *)
Lemma start_run (startStream : bool) (platform : Answers) (this : Webcam) :
  start startStream platform this
  = let this1 := emit (stop this) (getUserMedia (getMediaConstraints (stop this))) in
    match permission platform with
    | Rejected reason => (Rejected reason, this1)
    | Fulfilled permitted =>
        let this2 :=
          emit (set_streamList this1 (_streamList this1 ++ [permitted]))
            enumerateDevices in
        match devices platform with
        | Rejected reason => (Rejected reason, this2)
        | Fulfilled mediaDevices =>
            let this3 := selectCamera (getVideoInputs mediaDevices this2).2 in
            if startStream
            then
              let this4 := emit this3 (getUserMedia (getMediaConstraints this3)) in
              match media platform with
              | Rejected reason => (Rejected reason, this4)
              | Fulfilled acquired =>
                  (Fulfilled (FacingMode_string (_facingMode this3)),
                   stream_then acquired this4)
              end
            else (Fulfilled (_selectedDeviceId this3), this3)
        end
    end.
Proof.
  unfold start, info, stream, navigator_getUserMedia,
    navigator_enumerateDevices, perform, read, mbind, mret,
    Promise_bind, Promise_ret.
  destruct platform as [[permitted|?] [mediaDevices|?] answer]; simpl; try done.
  destruct startStream; [|done].
  destruct answer as [acquired|?]; simpl; [|done].
  by destruct (decide _).
Qed.

(** [start] resolves exactly when the platform grants every request that
    the run issues; otherwise it rejects with the reason it was given. *)
Lemma start_settles (startStream : bool) (platform : Answers) (this : Webcam) :
  match permission platform, devices platform, media platform with
  | Rejected reason, _, _ | Fulfilled _, Rejected reason, _ =>
      (start startStream platform this).1 = Rejected reason
  | Fulfilled _, Fulfilled _, Rejected reason =>
      if startStream
      then (start startStream platform this).1 = Rejected reason
      else ∃ value, (start startStream platform this).1 = Fulfilled value
  | Fulfilled _, Fulfilled _, Fulfilled _ =>
      ∃ value, (start startStream platform this).1 = Fulfilled value
  end.
Proof.
  rewrite start_run. cbn zeta.
  destruct (permission platform), (devices platform), (media platform),
    startStream; cbn [fst]; eauto.
Qed.

Lemma stream_then_frame (acquired : MediaStream) (this : Webcam) :
  _facingMode (stream_then acquired this) = _facingMode this
  ∧ _webcamList (stream_then acquired this) = _webcamList this
  ∧ _selectedDeviceId (stream_then acquired this) = _selectedDeviceId this
  ∧ ended (stream_then acquired this) = ended this
  ∧ _streamList (stream_then acquired this) = _streamList this ++ [acquired]
  ∧ Video.srcObject (_webcamElement (stream_then acquired this)) = Some acquired
  ∧ trace (stream_then acquired this) = trace this ++ [video_play].
Proof. unfold stream_then. by destruct (decide _). Qed.

Lemma getMediaConstraints_ext (this this' : Webcam) :
  _selectedDeviceId this' = _selectedDeviceId this →
  _facingMode this' = _facingMode this →
  getMediaConstraints this' = getMediaConstraints this.
Proof. unfold getMediaConstraints. by intros -> ->. Qed.

(** C6 (amended).  A run of [start] in which the platform grants what is
    asked: the tracks of the streams held before are halted first, then
    camera access is requested with the constraints of the state at the
    call, then the devices are enumerated and filtered, then the camera is
    selected from the filtered list under the facing mode that the
    enumeration leaves.  [start(false)] then resolves with the selected
    identifier, which is the identifier of the first matching entry or, with
    no match, the identifier held before the run; the video element is as
    before and nothing is played.  [start(true)] issues the second media
    request with the constraints of the state after selection, binds the
    stream, plays, and resolves with the facing mode. *)
Theorem start_stages (permitted acquired : MediaStream)
    (mediaDevices : list MediaDeviceInfo) (answer : Settled MediaStream)
    (this : Webcam) :
  let webcams := filter (λ d, kind d = videoinput) mediaDevices in
  let fm := if decide (length webcams = 1%nat) then user else _facingMode this in
  let selected := selected_after fm webcams (_selectedDeviceId this) in
  let stops := track_stop <$> tracks_of (_streamList this) in
  let off :=
    start false {| permission := Fulfilled permitted;
                   devices := Fulfilled mediaDevices;
                   media := answer |} this in
  let on :=
    start true {| permission := Fulfilled permitted;
                  devices := Fulfilled mediaDevices;
                  media := Fulfilled acquired |} this in
  (off.1 = Fulfilled selected
   ∧ _selectedDeviceId off.2 = selected
   ∧ ((∀ d, d ∈ webcams → ¬ label_matches fm d) →
      off.1 = Fulfilled (_selectedDeviceId this))
   ∧ _webcamElement off.2 = _webcamElement this
   ∧ trace off.2
     = (trace this ++ stops
        ++ [getUserMedia (getMediaConstraints this); enumerateDevices])%list
   ∧ _streamList off.2 = (_streamList this ++ [permitted])%list
   ∧ ended off.2 = list_to_set (tracks_of (_streamList this)) ∪ ended this
   ∧ _webcamList off.2 = webcams
   ∧ _facingMode off.2 = fm)
  ∧ (on.1 = Fulfilled (FacingMode_string fm)
     ∧ _facingMode on.2 = fm
     ∧ _selectedDeviceId on.2 = selected
     ∧ Video.srcObject (_webcamElement on.2) = Some acquired
     ∧ trace on.2
       = (trace this ++ stops
          ++ [getUserMedia (getMediaConstraints this); enumerateDevices;
              getUserMedia (getMediaConstraints on.2); video_play])%list
     ∧ _streamList on.2 = (_streamList this ++ [permitted; acquired])%list
     ∧ ended on.2 = list_to_set (tracks_of (_streamList this)) ∪ ended this
     ∧ _webcamList on.2 = webcams).
Proof.
  intros webcams fm selected stops off on. subst off on.
  rewrite !start_run. cbn [permission devices media]. cbn zeta.
  rewrite !getVideoInputs_state, !selectCamera_spec, !stop_halted.
  fold webcams. cbn -[filter tracks_of selected_after decide stream_then].
  fold webcams fm selected stops.
  split.
  - repeat split; try done.
    + intros Hnone. f_equal. subst selected. unfold selected_after.
      rewrite find_nowhere; [done|].
      intros d Hd. by apply selectCamera_test_false, Hnone.
    + by rewrite <- !app_assoc.
  - match goal with
    | |- context [stream_then acquired ?X] =>
        destruct (stream_then_frame acquired X)
          as (Hfm & Hlist & Hsel & Hended & Hstreams & Hsrc & Htrace)
    end.
    rewrite (getMediaConstraints_ext _ _ Hsel Hfm).
    rewrite Hfm, Hlist, Hsel, Hended, Hstreams, Hsrc, Htrace.
    cbn -[filter tracks_of selected_after decide].
    fold webcams fm selected stops.
    repeat split; try done.
    + by rewrite <- !app_assoc.
    + by rewrite <- !app_assoc.
Qed.

(** C6, the claim as stated fails.  In [example_session] the rear camera
    ["b1"] was selected by an earlier run and the caller then asked for the
    front camera.  The next [start(false)] finds no label containing
    ["front"], and resolves with ["b1"], not with the empty string. *)
Lemma start_false_keeps_earlier_selection :
  first_match (start false example_second_run example_session).2 = None
  ∧ (start false example_second_run example_session).1 = Fulfilled "b1"
  ∧ (start false example_second_run example_session).1 ≠ Fulfilled "".
Proof. split; [|split]; [by vm_compute | by vm_compute | by vm_compute]. Qed.

(** *** The selected identifier over a session *)

Lemma selectCamera_cases (this : Webcam) :
  selectCamera this = this
  ∨ ∃ webcam, first_match (selectCamera this) = Some webcam
              ∧ selectCamera this = set_selectedDeviceId this (deviceId webcam).
Proof.
  rewrite selectCamera_spec. unfold first_match, selected_after. simpl.
  destruct (List.find _ _) as [webcam|] eqn:Hfind.
  - right. by exists webcam.
  - left. unfold set_selectedDeviceId. apply Webcam_eta.
Qed.

(** What follows the selection in [start] leaves the facing mode, the camera
    list and the selected identifier as the selection left them. *)
Lemma start_last_stage (startStream : bool) (answer : Settled MediaStream)
    (this3 : Webcam) :
  let final :=
    (if startStream
     then
       match answer with
       | Rejected reason =>
           (Rejected reason,
            emit this3 (getUserMedia (getMediaConstraints this3)))
       | Fulfilled acquired =>
           (Fulfilled (FacingMode_string (_facingMode this3)),
            stream_then acquired
              (emit this3 (getUserMedia (getMediaConstraints this3))))
       end
     else (Fulfilled (_selectedDeviceId this3), this3)).2 in
  _facingMode final = _facingMode this3
  ∧ _webcamList final = _webcamList this3
  ∧ _selectedDeviceId final = _selectedDeviceId this3.
Proof.
  destruct startStream; [|done].
  destruct answer as [acquired|?]; [|done].
  cbn zeta. cbn [snd].
  by destruct (stream_then_frame acquired
                 (emit this3 (getUserMedia (getMediaConstraints this3))))
    as (-> & -> & -> & _).
Qed.

(** A call either leaves the selected identifier alone, or it is one of the
    calls that run [selectCamera], the scan has stopped at an entry, and the
    identifier is that entry's. *)
Lemma call_selected (c : Call) (this : Webcam) :
  _selectedDeviceId (call c this) = _selectedDeviceId this
  ∨ (selects c = true
     ∧ ∃ webcam, first_match (call c this) = Some webcam
                 ∧ _selectedDeviceId (call c this) = deviceId webcam).
Proof.
  destruct c as [fm|mediaDevices| | |startStream platform|answer|answer| |dataURL];
    cbn [call selects].
  - by left.
  - left. by rewrite getVideoInputs_state.
  - destruct (selectCamera_cases this) as [->|(webcam & Hfirst & Heq)]; [by left|].
    right. split; [done|]. exists webcam. split; [done|]. by rewrite Heq.
  - unfold flip.
    match goal with |- context [selectCamera ?X] =>
      destruct (selectCamera_cases X) as [->|(webcam & Hfirst & Heq)] end;
      [by left|].
    right. split; [done|]. exists webcam. split; [done|]. by rewrite Heq.
  - rewrite start_run. cbn zeta.
    destruct (permission platform) as [permitted|?];
      [|left; by rewrite stop_halted].
    destruct (devices platform) as [mediaDevices|?];
      [|left; by rewrite stop_halted].
    match goal with |- context [selectCamera ?X] =>
      assert (Hbefore : _selectedDeviceId X = _selectedDeviceId this)
        by (by rewrite getVideoInputs_state, stop_halted);
      destruct (start_last_stage startStream (media platform) (selectCamera X))
        as (Hfm & Hlist & Hsel);
      destruct (selectCamera_cases X) as [Heq|(webcam & Hfirst & Heq)]
    end.
    + left. by rewrite Hsel, Heq.
    + right. split; [done|]. exists webcam. unfold first_match.
      rewrite Hfm, Hlist, Hsel. split; [exact Hfirst | by rewrite Heq].
  - left. unfold info, navigator_enumerateDevices, perform, read, mbind,
      Promise_bind.
    destruct answer as [mediaDevices|?]; cbn -[getVideoInputs]; [|done].
    by rewrite getVideoInputs_state.
  - left. unfold stream, navigator_getUserMedia, perform, read, mbind,
      Promise_bind.
    destruct answer as [acquired|?]; cbn -[stream_then]; [|done].
    by destruct (stream_then_frame acquired
                   (emit this (getUserMedia (getMediaConstraints this))))
      as (_ & _ & -> & _).
  - left. by rewrite stop_halted.
  - left. unfold snap.
    destruct (_canvasElement this) as [canvas|]; [|done].
    destruct (getContext2d canvas); [|done].
    simpl. destruct (_snapSoundElement this); simpl; by destruct (decide _).
Qed.

(** A run of [start] is the sequence of its callbacks. *)
Lemma start_as_tasks (startStream : bool) (platform : Answers) (this : Webcam) :
  (start startStream platform this).2
  = tasks (start_tasks startStream platform) this.
Proof.
  rewrite start_run. unfold start_tasks, tasks. cbn zeta.
  destruct (permission platform) as [permitted|?]; [|done].
  destruct (devices platform) as [mediaDevices|?]; [|done].
  destruct startStream; [|done].
  by destruct (media platform) as [acquired|?].
Qed.

Lemma info_as_tasks (answer : Settled (list MediaDeviceInfo)) (this : Webcam) :
  (info answer this).2
  = tasks (task_info_executor ::
           match answer with
           | Fulfilled mediaDevices => [task_info_then mediaDevices]
           | Rejected _ => []
           end) this.
Proof.
  unfold info, navigator_enumerateDevices, perform, read, mbind, Promise_bind.
  by destruct answer.
Qed.

Lemma stream_as_tasks (answer : Settled MediaStream) (this : Webcam) :
  (stream answer this).2
  = tasks (task_stream_executor ::
           match answer with
           | Fulfilled acquired => [task_stream_then acquired]
           | Rejected _ => []
           end) this.
Proof.
  unfold stream, navigator_getUserMedia, perform, read, mbind, Promise_bind.
  by destruct answer.
Qed.

Lemma task_selected (t : Task) (this : Webcam) :
  _selectedDeviceId (task t this) = _selectedDeviceId this
  ∨ (task_selects t = true
     ∧ ∃ webcam, first_match (task t this) = Some webcam
                 ∧ _selectedDeviceId (task t this) = deviceId webcam).
Proof.
  destruct t as [c| |permitted| |mediaDevices|startStream| |acquired];
    cbn [task task_selects].
  - apply call_selected.
  - left. unfold start_executor. by rewrite stop_halted.
  - by left.
  - by left.
  - left. unfold info_then. by rewrite getVideoInputs_state.
  - unfold start_then_info. cbn zeta.
    destruct (selectCamera_cases this) as [->|(webcam & Hfirst & Heq)].
    + left. by destruct startStream.
    + right. split; [done|]. exists webcam.
      destruct startStream; unfold first_match in *; cbn [emit _facingMode
        _webcamList _selectedDeviceId]; (split; [exact Hfirst | by rewrite Heq]).
  - by left.
  - left. by destruct (stream_then_frame acquired this) as (_ & _ & -> & _).
Qed.

Lemma tasks_snoc (ts : list Task) (t : Task) (this : Webcam) :
  tasks (ts ++ [t]) this = task t (tasks ts this).
Proof. unfold tasks. by rewrite foldl_snoc. Qed.

(** If a sequence of tasks has changed the selected identifier, then one of
    them ran [selectCamera] with a match, and the identifier is that of the
    matched entry. *)
Lemma tasks_selected (ts : list Task) (this : Webcam) :
  _selectedDeviceId (tasks ts this) ≠ _selectedDeviceId this →
  ∃ before t after webcam,
    ts = before ++ t :: after
    ∧ task_selects t = true
    ∧ first_match (task t (tasks before this)) = Some webcam
    ∧ deviceId webcam = _selectedDeviceId (tasks ts this).
Proof.
  induction ts as [|t ts IH] using rev_ind; [done|].
  rewrite tasks_snoc. intros Hchanged.
  destruct (task_selected t (tasks ts this))
    as [Hsame|(Hselects & webcam & Hfirst & Hid)].
  - rewrite Hsame in Hchanged |- *.
    destruct (IH Hchanged) as (before & t' & after & webcam & -> & ? & ? & ?).
    exists before, t', (after ++ [t]), webcam.
    by rewrite <- app_assoc.
  - by exists ts, t, [], webcam.
Qed.

(** C9 (amended).  The selected identifier is empty after construction.  A
    task (a call, or a callback of a promise chain) that does not run
    [selectCamera] never changes it, and one that does changes it only when
    the scan has matched an entry, to that entry's identifier.  So in every
    state that a sequence of tasks reaches from construction, a non-empty
    selected identifier is the identifier of an entry that some earlier
    selection matched; and a selected identifier goes back to empty only by
    a selection that matches an entry whose identifier is empty. *)
Theorem selectedDeviceId_invariant (videoElement : Video.t)
    (facingMode : FacingMode) (canvasElement : option Canvas.t)
    (snapSoundElement : option HTMLAudioElement) (ts : list Task) :
  let fresh :=
    constructor videoElement facingMode canvasElement snapSoundElement in
  _selectedDeviceId fresh = ""
  ∧ (∀ t this,
       task_selects t = false →
       _selectedDeviceId (task t this) = _selectedDeviceId this)
  ∧ (∀ t this,
       _selectedDeviceId (task t this) ≠ _selectedDeviceId this →
       task_selects t = true
       ∧ ∃ webcam, first_match (task t this) = Some webcam
                   ∧ _selectedDeviceId (task t this) = deviceId webcam)
  ∧ (_selectedDeviceId (tasks ts fresh) ≠ "" →
     ∃ before t after webcam,
       ts = before ++ t :: after
       ∧ task_selects t = true
       ∧ first_match (task t (tasks before fresh)) = Some webcam
       ∧ deviceId webcam = _selectedDeviceId (tasks ts fresh))
  ∧ (∀ t this,
       _selectedDeviceId this ≠ "" →
       _selectedDeviceId (task t this) = "" →
       task_selects t = true
       ∧ ∃ webcam, first_match (task t this) = Some webcam
                   ∧ deviceId webcam = "").
Proof.
  intros fresh. split; [done|]. split; [|split; [|split]].
  - intros t this Hno.
    destruct (task_selected t this) as [Hsame|(Hselects & _)]; [done|].
    congruence.
  - intros t this Hchanged.
    by destruct (task_selected t this) as [Hsame|Hmatch].
  - intros Hnonempty. by apply tasks_selected.
  - intros t this Hheld Hcleared.
    destruct (task_selected t this)
      as [Hsame|(Hselects & webcam & Hfirst & Hid)]; [congruence|].
    split; [done|]. exists webcam. split; [done | congruence].
Qed.

(** C9, the claim as stated fails.  In [example_rear_selected] the rear
    camera ["b1"] is selected.  [flip] then matches the entry labelled
    ["Front Camera"], whose identifier is the empty string, and the selected
    identifier is empty again. *)
Lemma flip_clears_selection :
  _selectedDeviceId example_rear_selected = "b1"
  ∧ first_match (flip example_rear_selected)
    = Some {| deviceId := ""; groupId := "g2"; kind := videoinput;
              label := "Front Camera" |}
  ∧ _selectedDeviceId (flip example_rear_selected) = "".
Proof. split; [|split]; by vm_compute. Qed.

(** *** The examples of the specification *)

(** With the labels ["Back Camera"] and ["Front Camera"], in this order, and
    the facing mode ["user"], the second entry is selected. *)
Example selectCamera_front_camera :
  _selectedDeviceId
    (selectCamera
       (set_webcamList (constructor example_video user None None)
          [ {| deviceId := "b1"; groupId := "g1"; kind := videoinput;
               label := "Back Camera" |};
            {| deviceId := "f1"; groupId := "g1"; kind := videoinput;
               label := "Front Camera" |} ]))
  = "f1".
Proof. reflexivity. Qed.

(** Two streams are acquired, then [stop] is called twice: the first call
    halts the tracks of both, the second changes no track. *)
Example stop_twice :
  let running :=
    calls [call_stream (Fulfilled {| getTracks := [1%nat; 2%nat] |});
           call_stream (Fulfilled {| getTracks := [3%nat] |})]
      (constructor example_video user None None) in
  ended running = ∅
  ∧ ended (stop running) = {[ 1%nat; 2%nat; 3%nat ]}
  ∧ ended (stop (stop running)) = ended (stop running)
  ∧ length (_streamList (stop (stop running))) = 2%nat.
Proof. by vm_compute. Qed.

(** With a canvas that yields a 2D context, [snap] plays the sound, resizes
    the canvas to the rendered size of the video, flips the context for the
    front camera, clears, draws, and returns the encoded image. *)
Example snap_front_camera :
  let this :=
    constructor example_video user
      (Some {| Canvas.width := 300; Canvas.height := 150;
               Canvas.mode := Canvas.none |})
      (Some Audio) in
  (snap "data:image/png;base64,AAAA" this).1
  = Return "data:image/png;base64,AAAA"
  ∧ trace (snap "data:image/png;base64,AAAA" this).2
    = [audio_play; context_translate 640 0; context_scale (-1) 1;
       context_clearRect 0 0 640 480; context_drawImage 0 0 640 480;
       canvas_toDataURL "image/png"]
  ∧ _canvasElement (snap "data:image/png;base64,AAAA" this).2
    = Some {| Canvas.width := 640; Canvas.height := 480;
              Canvas.mode := Canvas.context2d |}.
Proof. by vm_compute. Qed.

(** ** Further properties of the class *)

(** *** constructor and accessors *)

(** X1.  The constructor gives the video element a width (640 when it had
    none) and, when it had no height, three quarters of that width, rounded
    down; dimensions that were set are kept.  The new object has no camera,
    no stream and no selection, its first request is keyed by the facing
    mode it was given, and no platform call has been made. *)
Theorem constructor_defaults (videoElement : Video.t) (facingMode : FacingMode)
    (canvasElement : option Canvas.t)
    (snapSoundElement : option HTMLAudioElement) :
  (0 ≤ Video.width videoElement)%Z →
  let fresh :=
    constructor videoElement facingMode canvasElement snapSoundElement in
  let width := Video.width (_webcamElement fresh) in
  let height := Video.height (_webcamElement fresh) in
  (0 < width)%Z
  ∧ (Video.width videoElement = 0 → width = 640)
  ∧ (Video.width videoElement ≠ 0 → width = Video.width videoElement)
  ∧ (Video.height videoElement ≠ 0 → height = Video.height videoElement)
  ∧ (Video.height videoElement = 0 →
     (4 * height ≤ 3 * width < 4 * height + 4)%Z)
  ∧ (Video.width videoElement = 0 → Video.height videoElement = 0 →
     height = 480)
  ∧ Video.srcObject (_webcamElement fresh) = Video.srcObject videoElement
  ∧ Video.style_transform (_webcamElement fresh)
    = Video.style_transform videoElement
  ∧ getFacingMode fresh = facingMode
  ∧ getWebcamCount fresh = 0%nat
  ∧ getSelectedDeviceId fresh = ""
  ∧ _streamList fresh = []
  ∧ getMediaConstraints fresh
    = {| types.video := {| types.facingMode := Some facingMode;
                           types.deviceId := None |};
         types.audio := false |}
  ∧ trace fresh = [].
Proof.
  intros Hwidth. cbn -[Z.mul Z.div]. unfold or_default.
  destruct (decide (Video.width videoElement = 0)) as [Hw|Hw];
    destruct (decide (Video.height videoElement = 0)) as [Hh|Hh];
    cbn -[Z.mul Z.div]; rewrite ?Hw, ?Hh;
    repeat split; intros; try done; try lia;
    try (Z.div_mod_to_equations; lia).
Qed.

Lemma constructor_defaults_witness :
  (0 ≤ Video.width example_video)%Z
  ∧ (0 < Video.width
           (_webcamElement (constructor example_video user None None)))%Z
  ∧ (Video.width example_video = 0 →
     Video.height example_video = 0 →
     Video.height (_webcamElement (constructor example_video user None None))
     = 480).
Proof.
  split; [by vm_compute|].
  pose proof (constructor_defaults example_video user None None) as H.
  cbn zeta in H. destruct H as (Hpos & _ & _ & _ & _ & Hboth & _).
  - by vm_compute.
  - split; [exact Hpos | exact Hboth].
Defined.

(** X2.  [setFacingMode] stores the mode and does nothing else: it selects
    no camera and calls nothing.  Once a device is selected the next media
    request is the same as before; only with no selection does the request
    carry the new mode. *)
Theorem setFacingMode_request (facingMode : FacingMode) (this : Webcam) :
  getFacingMode (setFacingMode facingMode this) = facingMode
  ∧ getWebcamList (setFacingMode facingMode this) = getWebcamList this
  ∧ getSelectedDeviceId (setFacingMode facingMode this)
    = getSelectedDeviceId this
  ∧ (getSelectedDeviceId this ≠ "" →
     getMediaConstraints (setFacingMode facingMode this)
     = getMediaConstraints this)
  ∧ (getSelectedDeviceId this = "" →
     types.facingMode (types.video
       (getMediaConstraints (setFacingMode facingMode this)))
     = Some facingMode)
  ∧ trace (setFacingMode facingMode this) = trace this.
Proof.
  unfold getSelectedDeviceId, getFacingMode, getWebcamList, setFacingMode,
    getMediaConstraints.
  cbn [set_facingMode _selectedDeviceId _facingMode _webcamList trace].
  repeat split; try done.
  - intros Hsel. by rewrite !decide_False.
  - intros Hsel. by rewrite decide_True.
Qed.

(** *** selectCamera and flip *)

(** X3.  Selecting twice is selecting once. *)
Theorem selectCamera_idempotent (this : Webcam) :
  selectCamera (selectCamera this) = selectCamera this.
Proof.
  rewrite !selectCamera_spec. unfold selected_after, set_selectedDeviceId.
  cbn [_facingMode _webcamList _selectedDeviceId _webcamElement _canvasElement
       _snapSoundElement _streamList ended trace].
  by destruct (List.find _ _).
Qed.

(** X4.  After a selection, the next media request asks for exactly the
    matched device when its identifier is not empty; a matched entry with an
    empty identifier leaves the request keyed by the facing mode. *)
Theorem selectCamera_request (webcam : MediaDeviceInfo) (this : Webcam) :
  first_match this = Some webcam →
  (deviceId webcam ≠ "" →
   getMediaConstraints (selectCamera this)
   = {| types.video :=
          {| types.facingMode := None;
             types.deviceId := Some {| types.exact := deviceId webcam |} |};
        types.audio := false |})
  ∧ (deviceId webcam = "" →
     getMediaConstraints (selectCamera this)
     = {| types.video :=
            {| types.facingMode := Some (_facingMode this);
               types.deviceId := None |};
          types.audio := false |}).
Proof.
  unfold first_match. intros Hfind.
  rewrite selectCamera_spec. unfold selected_after. rewrite Hfind.
  unfold getMediaConstraints. cbn [set_selectedDeviceId _selectedDeviceId
    _facingMode].
  split; intros Hid.
  - by rewrite decide_False.
  - by rewrite decide_True.
Qed.

Lemma selectCamera_request_witness :
  first_match
    (set_webcamList (constructor example_video environment None None)
       example_devices)
  = Some {| deviceId := "b1"; groupId := "g1"; kind := videoinput;
            label := "Back Camera" |}
  ∧ getMediaConstraints
      (selectCamera
         (set_webcamList (constructor example_video environment None None)
            example_devices))
    = {| types.video :=
           {| types.facingMode := None;
              types.deviceId := Some {| types.exact := "b1" |} |};
         types.audio := false |}.
Proof.
  split; [reflexivity|].
  apply (selectCamera_request
           {| deviceId := "b1"; groupId := "g1"; kind := videoinput;
              label := "Back Camera" |}); [reflexivity | done].
Defined.

(** X5.  When no label matches the mode that [flip] switches to and a
    device is already selected, [flip] changes nothing about the next media
    request: it still asks for the device selected before. *)
Theorem flip_without_match (this : Webcam) :
  _selectedDeviceId this ≠ "" →
  first_match (flip this) = None →
  _selectedDeviceId (flip this) = _selectedDeviceId this
  ∧ getMediaConstraints (flip this) = getMediaConstraints this.
Proof.
  intros Hsel. unfold flip, first_match. rewrite selectCamera_spec.
  cbn [set_selectedDeviceId set_webcamElement set_facingMode _facingMode
       _webcamList _selectedDeviceId].
  unfold selected_after. intros ->.
  split; [done|]. unfold getMediaConstraints.
  cbn [set_selectedDeviceId set_webcamElement set_facingMode
       _selectedDeviceId].
  by rewrite !decide_False.
Qed.

Lemma flip_without_match_witness :
  _selectedDeviceId
    (start false example_first_run
       (constructor example_video environment None None)).2 ≠ ""
  ∧ getMediaConstraints
      (flip (start false example_first_run
               (constructor example_video environment None None)).2)
    = getMediaConstraints
        (start false example_first_run
           (constructor example_video environment None None)).2.
Proof.
  split; [by vm_compute|].
  apply (flip_without_match
           (start false example_first_run
              (constructor example_video environment None None)).2).
  - by vm_compute.
  - by vm_compute.
Defined.

(** X6.  Two flips bring the facing mode back and never touch the camera
    list.  The selection they leave is the first match for the original
    mode when there is one (whatever was selected before), and otherwise
    what the first flip selected. *)
Theorem flip_flip (this : Webcam) :
  _facingMode (flip (flip this)) = _facingMode this
  ∧ _webcamList (flip (flip this)) = _webcamList this
  ∧ (∀ webcam, first_match this = Some webcam →
       _selectedDeviceId (flip (flip this)) = deviceId webcam)
  ∧ (first_match this = None →
     _selectedDeviceId (flip (flip this)) = _selectedDeviceId (flip this)).
Proof.
  unfold flip, first_match. rewrite !selectCamera_spec.
  cbn [set_selectedDeviceId set_webcamElement set_facingMode _facingMode
       _webcamList _selectedDeviceId _webcamElement].
  assert (Hback :
    (if decide ((if decide (_facingMode this = user)
                 then environment else user) = user)
     then environment else user) = _facingMode this).
  { by destruct (_facingMode this). }
  rewrite Hback. unfold selected_after at 1 3 4.
  repeat split; try done.
  - by intros webcam ->.
  - by intros ->.
Qed.

(** *** getVideoInputs *)

(** X7.  The camera list after [getVideoInputs] depends on the argument
    alone, not on what was stored; it is never longer than the argument;
    the facing mode afterwards is ["user"] or the mode before; and
    enumerating the same devices again changes nothing. *)
Theorem getVideoInputs_idempotent (mediaDevices earlier : list MediaDeviceInfo)
    (this : Webcam) :
  getWebcamList (getVideoInputs mediaDevices
                   (getVideoInputs earlier this).2).2
  = getWebcamList (getVideoInputs mediaDevices this).2
  ∧ (getWebcamCount (getVideoInputs mediaDevices this).2
     ≤ length mediaDevices)%nat
  ∧ (getFacingMode (getVideoInputs mediaDevices this).2 = user
     ∨ getFacingMode (getVideoInputs mediaDevices this).2 = getFacingMode this)
  ∧ (getVideoInputs mediaDevices (getVideoInputs mediaDevices this).2).2
    = (getVideoInputs mediaDevices this).2.
Proof.
  unfold getWebcamList, getWebcamCount, getFacingMode.
  rewrite !getVideoInputs_state.
  cbn [set_facingMode set_webcamList _webcamList _facingMode _webcamElement
       _canvasElement _snapSoundElement _streamList _selectedDeviceId ended
       trace].
  split; [done|]. split; [apply length_filter|].
  split; [destruct (decide _); [by left | by right]|].
  unfold set_facingMode, set_webcamList.
  cbn [_webcamElement _canvasElement _snapSoundElement _facingMode _webcamList
       _streamList _selectedDeviceId ended trace].
  by destruct (decide _).
Qed.

(** *** Streams, tracks and calls over a session *)

Lemma extends_refl (this : Webcam) : extends this this.
Proof.
  exists []. rewrite app_nil_r.
  split; [done|]. split; [by left|]. split; done.
Qed.

Lemma extends_trans (this this' this'' : Webcam) :
  extends this this' → extends this' this'' → extends this this''.
Proof.
  intros (k1 & Hlist1 & Hsrc1 & Hended1 & Htrace1)
         (k2 & Hlist2 & Hsrc2 & Hended2 & Htrace2).
  exists (k1 ++ k2). split; [by rewrite Hlist2, Hlist1, app_assoc|].
  split; [|split; [by etrans | by etrans]].
  destruct Hsrc2 as [Hsame2|(stream & Hsome & Hin)].
  - rewrite Hsame2. destruct Hsrc1 as [Hsame1|(stream & Hsome & Hin)].
    + by left.
    + right. exists stream. split; [done|]. apply elem_of_app. by left.
  - right. exists stream. split; [done|]. apply elem_of_app. by right.
Qed.

(** A step that keeps the streams and the shown stream, halts only more
    tracks and only adds calls. *)
Lemma extends_same_streams (this this' : Webcam) (issued : list Event) :
  _streamList this' = _streamList this →
  Video.srcObject (_webcamElement this')
  = Video.srcObject (_webcamElement this) →
  ended this ⊆ ended this' →
  trace this' = trace this ++ issued →
  extends this this'.
Proof.
  intros Hlist Hsrc Hended Htrace. exists [].
  rewrite app_nil_r.
  split; [done|]. split; [by left|]. split; [done|].
  by exists issued.
Qed.

Lemma extends_stop (this : Webcam) : extends this (stop this).
Proof.
  rewrite stop_halted.
  apply (extends_same_streams _ _ (track_stop <$> tracks_of (_streamList this)));
    try done.
  apply union_subseteq_r.
Qed.

Lemma extends_emit (this : Webcam) (e : Event) : extends this (emit this e).
Proof. by apply (extends_same_streams _ _ [e]). Qed.

Lemma extends_getVideoInputs (mediaDevices : list MediaDeviceInfo)
    (this : Webcam) :
  extends this (getVideoInputs mediaDevices this).2.
Proof.
  rewrite getVideoInputs_state.
  apply (extends_same_streams _ _ []); try done.
  by rewrite app_nil_r.
Qed.

Lemma extends_selectCamera (this : Webcam) : extends this (selectCamera this).
Proof.
  rewrite selectCamera_spec.
  apply (extends_same_streams _ _ []); try done.
  by rewrite app_nil_r.
Qed.

Lemma extends_flip (this : Webcam) : extends this (flip this).
Proof.
  unfold flip. rewrite selectCamera_spec.
  apply (extends_same_streams _ _ []); try done.
  by rewrite app_nil_r.
Qed.

Lemma extends_push (stream : MediaStream) (this : Webcam) :
  extends this (set_streamList this (_streamList this ++ [stream])).
Proof.
  exists [stream]. split; [done|]. split; [by left|]. split; done.
Qed.

Lemma extends_stream_then (acquired : MediaStream) (this : Webcam) :
  extends this (stream_then acquired this).
Proof.
  destruct (stream_then_frame acquired this)
    as (_ & _ & _ & Hended & Hlist & Hsrc & Htrace).
  exists [acquired]. split; [done|]. split; [|split].
  - right. exists acquired. split; [done | apply list_elem_of_here].
  - by rewrite Hended.
  - rewrite Htrace. by apply prefix_app_r.
Qed.

Lemma extends_snap (dataURL : string) (this : Webcam) :
  extends this (snap dataURL this).2.
Proof.
  unfold snap.
  destruct (_canvasElement this) as [canvas|]; [|apply extends_refl].
  destruct (getContext2d canvas) as [bound|]; [|apply extends_refl].
  cbn -[decide]. destruct (_snapSoundElement this); cbn -[decide];
    destruct (decide _); cbn;
    (eapply extends_same_streams; [done | done | done |]);
    cbn; rewrite <- ?app_assoc; reflexivity.
Qed.

Lemma extends_start (startStream : bool) (platform : Answers) (this : Webcam) :
  extends this (start startStream platform this).2.
Proof.
  rewrite start_run. cbn zeta.
  assert (H1 : extends this
            (emit (stop this) (getUserMedia (getMediaConstraints (stop this))))).
  { eapply extends_trans; [apply extends_stop | apply extends_emit]. }
  destruct (permission platform) as [permitted|?]; [|done].
  match goal with |- context [getVideoInputs _ ?X] =>
    assert (H2 : extends this X)
  end.
  { eapply extends_trans; [exact H1|].
    eapply extends_trans; [apply extends_push | apply extends_emit]. }
  destruct (devices platform) as [mediaDevices|?]; [|done].
  match goal with |- context [selectCamera ?X] =>
    assert (H3 : extends this (selectCamera X))
  end.
  { eapply extends_trans; [exact H2|].
    eapply extends_trans; [apply extends_getVideoInputs
                          | apply extends_selectCamera]. }
  destruct startStream; [|done].
  destruct (media platform) as [acquired|?]; cbn [snd].
  - eapply extends_trans; [exact H3|].
    eapply extends_trans; [apply extends_emit | apply extends_stream_then].
  - eapply extends_trans; [exact H3 | apply extends_emit].
Qed.

Lemma extends_call (c : Call) (this : Webcam) : extends this (call c this).
Proof.
  destruct c as [fm|mediaDevices| | |startStream platform|answer|answer| |dataURL];
    cbn [call].
  - by apply (extends_same_streams _ _ []); try done; rewrite app_nil_r.
  - apply extends_getVideoInputs.
  - apply extends_selectCamera.
  - apply extends_flip.
  - apply extends_start.
  - rewrite info_as_tasks. unfold tasks.
    destruct answer as [mediaDevices|?]; cbn [foldl task].
    + eapply extends_trans; [apply extends_emit | apply extends_getVideoInputs].
    + apply extends_emit.
  - rewrite stream_as_tasks. unfold tasks.
    destruct answer as [acquired|?]; cbn [foldl task].
    + eapply extends_trans; [apply extends_emit | apply extends_stream_then].
    + apply extends_emit.
  - apply extends_stop.
  - apply extends_snap.
Qed.

Lemma extends_task (t : Task) (this : Webcam) : extends this (task t this).
Proof.
  destruct t as [c| |permitted| |mediaDevices|startStream| |acquired];
    cbn [task].
  - apply extends_call.
  - eapply extends_trans; [apply extends_stop | apply extends_emit].
  - eapply extends_trans; [apply extends_push | apply extends_emit].
  - apply extends_emit.
  - apply extends_getVideoInputs.
  - unfold start_then_info. cbn zeta. destruct startStream.
    + eapply extends_trans; [apply extends_selectCamera | apply extends_emit].
    + apply extends_selectCamera.
  - apply extends_emit.
  - apply extends_stream_then.
Qed.

Lemma extends_tasks (ts : list Task) (this : Webcam) :
  extends this (tasks ts this).
Proof.
  induction ts as [|t ts IH] using rev_ind; [apply extends_refl|].
  rewrite tasks_snoc. eapply extends_trans; [exact IH | apply extends_task].
Qed.

(** X8.  Over any sequence of calls and callbacks the stream list only
    grows at its end (no handle is ever dropped, not even by [stop]), a
    halted track stays halted, and the record of platform calls only grows. *)
Theorem session_only_grows (ts : list Task) (this : Webcam) :
  _streamList this `prefix_of` _streamList (tasks ts this)
  ∧ ended this ⊆ ended (tasks ts this)
  ∧ trace this `prefix_of` trace (tasks ts this).
Proof.
  destruct (extends_tasks ts this) as (acquired & Hlist & _ & Hended & Htrace).
  split; [by exists acquired | done].
Qed.

(** X9.  When the video element shows no stream at construction, the stream
    it shows in any later state is one of the stream list, so that [stop]
    halts every track of what is on display. *)
Theorem shown_stream_is_stopped (videoElement : Video.t)
    (facingMode : FacingMode) (canvasElement : option Canvas.t)
    (snapSoundElement : option HTMLAudioElement) (ts : list Task) :
  Video.srcObject videoElement = None →
  let this :=
    tasks ts (constructor videoElement facingMode canvasElement
                snapSoundElement) in
  shown_is_listed this
  ∧ ∀ stream track,
      Video.srcObject (_webcamElement this) = Some stream →
      track ∈ getTracks stream →
      track ∈ ended (stop this).
Proof.
  intros Hunbound this.
  assert (Hlisted : shown_is_listed this).
  { intros stream Hshown. subst this.
    destruct (extends_tasks ts
                (constructor videoElement facingMode canvasElement
                   snapSoundElement))
      as (acquired & Hlist & [Hsame|(stream' & Hsome & Hin)] & _).
    - rewrite Hsame in Hshown. cbn in Hshown. congruence.
    - rewrite Hlist. cbn. congruence. }
  split; [done|].
  intros stream track Hshown Htrack. rewrite stop_halted. cbn [halted ended].
  apply elem_of_union_l, elem_of_list_to_set, elem_of_tracks_of.
  exists stream. split; [by apply Hlisted | done].
Qed.

Lemma shown_stream_is_stopped_witness :
  Video.srcObject example_video = None
  ∧ shown_is_listed
      (tasks [task_call (call_start true example_first_run)]
         (constructor example_video environment None None)).
Proof.
  split; [reflexivity|].
  apply (shown_stream_is_stopped example_video environment None None
           [task_call (call_start true example_first_run)]).
  reflexivity.
Defined.

(** *** stop *)

(** X10.  [stop] leaves the state exactly as it was if and only if the
    streams of the list have no track at all; in particular on a session
    without streams.  A repeated [stop] calls [stop()] again on every track
    of every stream ever acquired, although none is live. *)
Theorem stop_noop_iff (this : Webcam) :
  (stop this = this ↔ tracks_of (_streamList this) = [])
  ∧ (_streamList this = [] → stop this = this)
  ∧ trace (stop (stop this))
    = trace this ++ (track_stop <$> tracks_of (_streamList this))
        ++ (track_stop <$> tracks_of (_streamList this)).
Proof.
  rewrite !stop_halted. split; [|split].
  - split.
    + intros Heq. apply (f_equal trace) in Heq. cbn [halted trace] in Heq.
      rewrite <- (app_nil_r (trace this)) in Heq at 2.
      apply app_inv_head in Heq. by apply fmap_nil_inv in Heq.
    + intros ->. apply halted_nil.
  - intros ->. apply halted_nil.
  - cbn [halted trace _streamList]. by rewrite app_assoc.
Qed.

(** *** info and stream *)

(** X11.  [info] asks the platform for the devices once.  When the answer
    comes it resolves with the video inputs of the answer, which are then
    the camera list; when the platform refuses, it rejects with the
    platform's reason and the camera list and facing mode stay as they
    were.  In neither case does it touch the selection or the streams. *)
Theorem info_settles (mediaDevices : list MediaDeviceInfo) (reason : Error)
    (this : Webcam) :
  let webcams := filter (λ d, kind d = videoinput) mediaDevices in
  ((info (Fulfilled mediaDevices) this).1 = Fulfilled webcams
   ∧ getWebcamList (info (Fulfilled mediaDevices) this).2 = webcams
   ∧ (info (Fulfilled mediaDevices) this).2
     = (getVideoInputs mediaDevices (emit this enumerateDevices)).2
   ∧ _selectedDeviceId (info (Fulfilled mediaDevices) this).2
     = _selectedDeviceId this
   ∧ _streamList (info (Fulfilled mediaDevices) this).2 = _streamList this
   ∧ trace (info (Fulfilled mediaDevices) this).2
     = trace this ++ [enumerateDevices])
  ∧ info (Rejected reason) this
    = (Rejected reason, emit this enumerateDevices).
Proof.
  intros webcams.
  unfold info, navigator_enumerateDevices, perform, read, mbind, Promise_bind.
  cbn -[getVideoInputs filter]. unfold getWebcamList.
  rewrite !getVideoInputs_state. fold webcams.
  split; [|done].
  split; [by destruct (decide _)|].
  split; [by destruct (decide _)|]. done.
Qed.

(** X12.  When the platform refuses the stream, [stream] rejects with the
    platform's reason after the one request: no handle is added, the video
    element keeps its source and its transform, and nothing is played. *)
Theorem stream_rejected (reason : Error) (this : Webcam) :
  (stream (Rejected reason) this).1 = Rejected reason
  ∧ _streamList (stream (Rejected reason) this).2 = _streamList this
  ∧ _webcamElement (stream (Rejected reason) this).2 = _webcamElement this
  ∧ trace (stream (Rejected reason) this).2
    = trace this ++ [getUserMedia (getMediaConstraints this)]
  ∧ stream (Rejected reason) this
    = (Rejected reason, stream_executor this).
Proof.
  unfold stream, stream_executor, navigator_getUserMedia, perform, read,
    mbind, Promise_bind.
  by cbn -[getMediaConstraints].
Qed.

(** *** start *)

Lemma getMediaConstraints_halted (tracks : list MediaStreamTrack)
    (this : Webcam) :
  getMediaConstraints (halted tracks this) = getMediaConstraints this.
Proof. by apply getMediaConstraints_ext. Qed.

(** X13.  A run of [start] that the platform refuses at some stage rejects
    with the reason of that stage, and keeps what the earlier stages did.
    Refused camera access: the old tracks are halted and nothing else
    changed.  Refused enumeration: the stream from the permission request is
    in the stream list with its tracks not halted by the run, and the camera
    list, facing mode and selection are the old ones.  Refused stream (when
    streaming was asked for): enumeration and selection are done, the video
    element is untouched and nothing is played.  In the last two cases a
    later [stop] halts the tracks of the stream that was kept. *)
Theorem start_rejected (startStream : bool) (permitted : MediaStream)
    (mediaDevices : list MediaDeviceInfo)
    (answer : Settled (list MediaDeviceInfo)) (later : Settled MediaStream)
    (reason : Error) (this : Webcam) :
  let stops := track_stop <$> tracks_of (_streamList this) in
  let refused :=
    start startStream {| permission := Rejected reason; devices := answer;
                         media := later |} this in
  let blind :=
    start startStream {| permission := Fulfilled permitted;
                         devices := Rejected reason; media := later |} this in
  let dark :=
    start true {| permission := Fulfilled permitted;
                  devices := Fulfilled mediaDevices;
                  media := Rejected reason |} this in
  (refused.1 = Rejected reason
   ∧ refused.2
     = emit (stop this) (getUserMedia (getMediaConstraints this)))
  ∧ (blind.1 = Rejected reason
     ∧ _streamList blind.2 = _streamList this ++ [permitted]
     ∧ ended blind.2 = ended (stop this)
     ∧ _webcamList blind.2 = _webcamList this
     ∧ _facingMode blind.2 = _facingMode this
     ∧ _selectedDeviceId blind.2 = _selectedDeviceId this
     ∧ trace blind.2
       = trace this ++ stops
         ++ [getUserMedia (getMediaConstraints this); enumerateDevices]
     ∧ ∀ track, track ∈ getTracks permitted → track ∈ ended (stop blind.2))
  ∧ (dark.1 = Rejected reason
     ∧ _streamList dark.2 = _streamList this ++ [permitted]
     ∧ (dark.2 = emit (start false
                         {| permission := Fulfilled permitted;
                            devices := Fulfilled mediaDevices;
                            media := later |} this).2
                   (getUserMedia (getMediaConstraints dark.2)))
     ∧ _webcamElement dark.2 = _webcamElement this
     ∧ ∀ track, track ∈ getTracks permitted → track ∈ ended (stop dark.2)).
Proof.
  intros stops refused blind dark. subst refused blind dark.
  rewrite !start_run. cbn [permission devices media]. cbn zeta.
  assert (Hstop : ∀ (held : Webcam) track,
            permitted ∈ _streamList held →
            track ∈ getTracks permitted → track ∈ ended (stop held)).
  { intros held track Hheld Htrack. rewrite stop_halted. cbn [halted ended].
    apply elem_of_union_l, elem_of_list_to_set, elem_of_tracks_of.
    by exists permitted. }
  rewrite !getVideoInputs_state, !selectCamera_spec.
  rewrite !(stop_halted this), !getMediaConstraints_halted.
  split; [done|]. split.
  - cbn [fst snd]. split; [done|]. split; [done|]. split; [done|].
    split; [done|]. split; [done|]. split; [done|].
    split; [cbn; by rewrite <- !app_assoc|].
    intros track Htrack. apply Hstop; [|done].
    cbn. apply elem_of_app. right. apply list_elem_of_here.
  - cbn [fst snd]. split; [done|]. split; [done|].
    split; [by destruct (decide _)|]. split; [done|].
    intros track Htrack. apply Hstop; [|done].
    cbn. apply elem_of_app. right. apply list_elem_of_here.
Qed.

(** X14.  [start(false)] followed by [stream()] is [start(true)]: when the
    platform grants access and enumeration, the two ways end in the same
    state, and [start(true)] settles as [stream] does (resolving with the
    facing mode's string, or rejecting with the same reason). *)
Theorem start_false_then_stream (permitted : MediaStream)
    (mediaDevices : list MediaDeviceInfo) (answer : Settled MediaStream)
    (this : Webcam) :
  let platform := {| permission := Fulfilled permitted;
                     devices := Fulfilled mediaDevices;
                     media := answer |} in
  (stream answer (start false platform this).2).2
  = (start true platform this).2
  ∧ match (stream answer (start false platform this).2).1 with
    | Fulfilled facingMode =>
        (start true platform this).1
        = Fulfilled (FacingMode_string facingMode)
    | Rejected reason => (start true platform this).1 = Rejected reason
    end.
Proof.
  intros platform. subst platform.
  rewrite !start_run. cbn [permission devices media]. cbn zeta. cbn [snd].
  unfold stream, navigator_getUserMedia, perform, read, mbind, Promise_bind.
  destruct answer as [acquired|reason]; cbn [fst snd]; [|done].
  split; [done|].
  match goal with |- context [stream_then acquired ?X] =>
    by destruct (stream_then_frame acquired X) as (-> & _)
  end.
Qed.

(** X15.  Whatever the platform answers, a run of [start] halts every track
    of every stream held before it and no other track: a stream acquired
    during the run is live afterwards unless its tracks were halted
    already. *)
Theorem start_halts_held (startStream : bool) (platform : Answers)
    (this : Webcam) :
  ended (start startStream platform this).2
  = list_to_set (tracks_of (_streamList this)) ∪ ended this
  ∧ (∀ stream track,
       stream ∈ _streamList this → track ∈ getTracks stream →
       track ∈ ended (start startStream platform this).2)
  ∧ (∀ track,
       track ∉ ended this → track ∉ tracks_of (_streamList this) →
       track ∉ ended (start startStream platform this).2).
Proof.
  assert (Hended : ended (start startStream platform this).2
                   = list_to_set (tracks_of (_streamList this)) ∪ ended this).
  { rewrite start_run. cbn zeta.
    destruct (permission platform) as [permitted|?];
      [|by rewrite stop_halted].
    destruct (devices platform) as [mediaDevices|?];
      [|by rewrite stop_halted].
    rewrite getVideoInputs_state, selectCamera_spec, stop_halted.
    destruct startStream; [|done].
    destruct (media platform) as [acquired|?]; [|done].
    cbn [snd].
    match goal with |- context [stream_then acquired ?X] =>
      by destruct (stream_then_frame acquired X) as (_ & _ & _ & -> & _)
    end. }
  rewrite Hended. split; [done|]. split.
  - intros stream track Hstream Htrack.
    apply elem_of_union_l, elem_of_list_to_set, elem_of_tracks_of.
    by exists stream.
  - intros track Hlive Hnew [Hin%elem_of_list_to_set|Hin]%elem_of_union; done.
Qed.

(** X16.  Every run of [start(true)] that the platform grants adds two
    handles to the stream list: the stream of the permission request is
    kept beside the one that is shown.  After [n] such runs the list holds
    [2 n] handles more. *)
Theorem start_keeps_both_streams (platforms : list Answers) (this : Webcam) :
  Forall granted platforms →
  length (_streamList (calls (call_start true <$> platforms) this))
  = (length (_streamList this) + 2 * length platforms)%nat.
Proof.
  intros Hgranted. revert this.
  induction Hgranted as [|platform platforms Hplatform _ IH]; intros this.
  - cbn. lia.
  - cbn [fmap list_fmap calls foldl call length]. fold (call_start true <$> platforms).
    change (foldl (λ this c, call c this) ?x ?l) with (calls l x).
    rewrite IH, start_run. cbn zeta.
    unfold granted in Hplatform.
    destruct (permission platform) as [permitted|?]; [|done].
    destruct (devices platform) as [mediaDevices|?]; [|done].
    destruct (media platform) as [acquired|?]; [|done].
    cbn [snd].
    match goal with |- context [stream_then acquired ?X] =>
      destruct (stream_then_frame acquired X) as (_ & _ & _ & _ & -> & _)
    end.
    rewrite getVideoInputs_state, selectCamera_spec, stop_halted.
    cbn. rewrite !length_app. cbn. lia.
Qed.

Lemma start_keeps_both_streams_witness :
  Forall granted [example_first_run; example_second_run]
  ∧ length (_streamList
              (calls (call_start true
                        <$> [example_first_run; example_second_run])
                 (constructor example_video user None None)))
    = 4%nat.
Proof.
  assert (H : Forall granted [example_first_run; example_second_run]).
  { repeat constructor. }
  split; [exact H|].
  exact (start_keeps_both_streams [example_first_run; example_second_run]
           (constructor example_video user None None) H).
Defined.

(** *** snap *)

(** X17.  With a canvas that can give a 2D context, [snap] returns what the
    canvas encodes and changes only the canvas and the record of calls: the
    canvas takes the rendered size of the video element; the sound is
    played when there is a sound element; the context is flipped
    horizontally exactly when the facing mode is ["user"]; then the canvas
    is cleared and the frame drawn over its whole area and encoded as PNG.
    The session (facing mode, camera list, selection, streams, tracks, video
    element) is as before. *)
Theorem snap_draws (dataURL : string) (canvas : Canvas.t) (this : Webcam) :
  _canvasElement this = Some canvas →
  Canvas.mode canvas ≠ Canvas.other →
  let width := Video.scrollWidth (_webcamElement this) in
  let height := Video.scrollHeight (_webcamElement this) in
  (snap dataURL this).1 = Return dataURL
  ∧ _canvasElement (snap dataURL this).2
    = Some {| Canvas.width := width; Canvas.height := height;
              Canvas.mode := Canvas.context2d |}
  ∧ trace (snap dataURL this).2
    = trace this
      ++ match _snapSoundElement this with
         | Some _ => [audio_play]
         | None => []
         end
      ++ (if decide (_facingMode this = user)
          then [context_translate width 0; context_scale (-1) 1] else [])
      ++ [context_clearRect 0 0 width height;
          context_drawImage 0 0 width height;
          canvas_toDataURL "image/png"]
  ∧ _webcamElement (snap dataURL this).2 = _webcamElement this
  ∧ _snapSoundElement (snap dataURL this).2 = _snapSoundElement this
  ∧ _facingMode (snap dataURL this).2 = _facingMode this
  ∧ _webcamList (snap dataURL this).2 = _webcamList this
  ∧ _selectedDeviceId (snap dataURL this).2 = _selectedDeviceId this
  ∧ _streamList (snap dataURL this).2 = _streamList this
  ∧ ended (snap dataURL this).2 = ended this.
Proof.
  intros Hcanvas Hmode width height. subst width height.
  unfold snap. rewrite Hcanvas.
  assert (Hcontext : getContext2d canvas
            = Some {| Canvas.width := Canvas.width canvas;
                      Canvas.height := Canvas.height canvas;
                      Canvas.mode := Canvas.context2d |}).
  { unfold getContext2d. by destruct (Canvas.mode canvas). }
  rewrite Hcontext. cbn -[decide].
  destruct (_snapSoundElement this) eqn:Hsound; cbn -[decide];
    destruct (decide (_facingMode this = user)); cbn;
    rewrite <- ?app_assoc, ?Hsound; done.
Qed.

Lemma snap_draws_witness :
  Canvas.mode {| Canvas.width := 300; Canvas.height := 150;
                 Canvas.mode := Canvas.none |} ≠ Canvas.other
  ∧ (snap "data:image/png;base64,AAAA"
       (constructor example_video environment
          (Some {| Canvas.width := 300; Canvas.height := 150;
                   Canvas.mode := Canvas.none |})
          None)).1
    = Return "data:image/png;base64,AAAA".
Proof.
  split; [done|].
  apply (snap_draws "data:image/png;base64,AAAA"
           {| Canvas.width := 300; Canvas.height := 150;
              Canvas.mode := Canvas.none |}
           (constructor example_video environment
              (Some {| Canvas.width := 300; Canvas.height := 150;
                       Canvas.mode := Canvas.none |})
              None)); [reflexivity | done].
Defined.

(** *** The camera list and the facing mode over a session *)

(** What a task does to the camera list and the facing mode: it keeps the
    list, and the mode too unless it is [setFacingMode] or [flip]; or it has
    enumerated, and the list and mode are those that [getVideoInputs]
    leaves. *)
Lemma task_enumeration (t : Task) (this : Webcam) :
  (_webcamList (task t this) = _webcamList this
   ∧ (_facingMode (task t this) = _facingMode this
      ∨ (∃ facingMode, t = task_call (call_setFacingMode facingMode))
      ∨ t = task_call call_flip))
  ∨ ∃ mediaDevices,
      _webcamList (task t this)
      = filter (λ d, kind d = videoinput) mediaDevices
      ∧ _facingMode (task t this)
        = if decide (length (filter (λ d, kind d = videoinput) mediaDevices)
                     = 1%nat)
          then user else _facingMode this.
Proof.
  destruct t as [c| |permitted| |mediaDevices|startStream| |acquired];
    cbn [task].
  - destruct c
      as [fm|mediaDevices| | |startStream platform|answer|answer| |dataURL];
      cbn [call].
    + left. split; [done|]. right. left. by exists fm.
    + right. exists mediaDevices. by rewrite getVideoInputs_state.
    + left. by rewrite selectCamera_spec; split; [|left].
    + left. unfold flip. rewrite selectCamera_spec. split; [done|].
      by right; right.
    + rewrite start_run. cbn zeta.
      destruct (permission platform) as [permitted|?];
        [|left; by rewrite stop_halted; split; [|left]].
      destruct (devices platform) as [mediaDevices|?];
        [|left; by rewrite stop_halted; split; [|left]].
      right. exists mediaDevices.
      match goal with |- context [selectCamera ?X] =>
        destruct (start_last_stage startStream (media platform)
                    (selectCamera X)) as (-> & -> & _)
      end.
      by rewrite selectCamera_spec, getVideoInputs_state, stop_halted.
    + rewrite info_as_tasks. unfold tasks.
      destruct answer as [mediaDevices|?]; cbn [foldl task].
      * right. exists mediaDevices. unfold info_then.
        by rewrite getVideoInputs_state.
      * left. by split; [|left].
    + rewrite stream_as_tasks. unfold tasks.
      destruct answer as [acquired|?]; cbn [foldl task].
      * left.
        by destruct (stream_then_frame acquired (stream_executor this))
          as (-> & -> & _); split; [|left].
      * left. by split; [|left].
    + left. by rewrite stop_halted; split; [|left].
    + left. unfold snap.
      destruct (_canvasElement this) as [canvas|]; [|by split; [|left]].
      destruct (getContext2d canvas); [|by split; [|left]].
      cbn -[decide]. destruct (_snapSoundElement this); cbn -[decide];
        destruct (decide _); by split; [|left].
  - left. unfold start_executor. by rewrite stop_halted; split; [|left].
  - left. by split; [|left].
  - left. by split; [|left].
  - right. exists mediaDevices. unfold info_then.
    by rewrite getVideoInputs_state.
  - left. unfold start_then_info. cbn zeta. rewrite selectCamera_spec.
    destruct startStream; by split; [|left].
  - left. by split; [|left].
  - left. by destruct (stream_then_frame acquired this) as (-> & -> & _);
      split; [|left].
Qed.

(** X18.  In every state that a session reaches from construction, the
    camera list holds video inputs only, so [getWebcamCount] counts
    cameras and never microphones or speakers. *)
Theorem webcamList_video_inputs (videoElement : Video.t)
    (facingMode : FacingMode) (canvasElement : option Canvas.t)
    (snapSoundElement : option HTMLAudioElement) (ts : list Task) :
  Forall (λ d, kind d = videoinput)
    (getWebcamList
       (tasks ts (constructor videoElement facingMode canvasElement
                    snapSoundElement))).
Proof.
  unfold getWebcamList.
  induction ts as [|t ts IH] using rev_ind; [by constructor|].
  rewrite tasks_snoc.
  destruct (task_enumeration t
              (tasks ts (constructor videoElement facingMode canvasElement
                           snapSoundElement)))
    as [[-> _]|(mediaDevices & -> & _)]; [done|].
  apply Forall_forall. by intros d [? _]%list_elem_of_filter.
Qed.

(** A task that does not enumerate keeps the facing mode, unless it is
    [setFacingMode] or [flip]. *)
Lemma task_keeps_facingMode (t : Task) (this : Webcam) :
  enumerates t = false →
  _facingMode (task t this) = _facingMode this
  ∨ (∃ facingMode, t = task_call (call_setFacingMode facingMode))
  ∨ t = task_call call_flip.
Proof.
  intros Hno.
  destruct (task_enumeration t this)
    as [[_ Hkept]|(mediaDevices & _ & _)]; [done|].
  destruct t as [c| |permitted| |devices|startStream| |acquired];
    cbn [task]; try discriminate Hno.
  - destruct c
      as [fm|devices| | |startStream platform|answer|answer| |dataURL];
      cbn [call]; try discriminate Hno.
    + right. left. by exists fm.
    + left. by rewrite selectCamera_spec.
    + by right; right.
    + left. rewrite stream_as_tasks. unfold tasks.
      destruct answer as [acquired|?]; cbn [foldl task]; [|done].
      by destruct (stream_then_frame acquired (stream_executor this))
        as (-> & _).
    + left. by rewrite stop_halted.
    + left. unfold snap.
      destruct (_canvasElement this) as [canvas|]; [|done].
      destruct (getContext2d canvas); [|done].
      cbn -[decide]. destruct (_snapSoundElement this); cbn -[decide];
        by destruct (decide _).
  - left. unfold start_executor. by rewrite stop_halted.
  - by left.
  - by left.
  - left. unfold start_then_info. cbn zeta. rewrite selectCamera_spec.
    by destruct startStream.
  - by left.
  - left. by destruct (stream_then_frame acquired this) as (-> & _).
Qed.

(** X19.  The facing mode changes only in three ways: [setFacingMode],
    [flip], and an enumeration that finds exactly one camera, which sets it
    to ["user"].  Streaming, stopping, selecting and taking a picture never
    change it. *)
Theorem facingMode_changes (t : Task) (this : Webcam) :
  (getFacingMode (task t this) = getFacingMode this
   ∨ (∃ facingMode, t = task_call (call_setFacingMode facingMode))
   ∨ t = task_call call_flip
   ∨ (enumerates t = true
      ∧ getFacingMode (task t this) = user
      ∧ getWebcamCount (task t this) = 1%nat))
  ∧ (∀ answer, getFacingMode (stream answer this).2 = getFacingMode this)
  ∧ getFacingMode (stop this) = getFacingMode this
  ∧ getFacingMode (selectCamera this) = getFacingMode this
  ∧ (∀ dataURL, getFacingMode (snap dataURL this).2 = getFacingMode this).
Proof.
  unfold getFacingMode, getWebcamCount.
  assert (Hcall : ∀ c, enumerates (task_call c) = false →
            (∀ fm, c ≠ call_setFacingMode fm) → c ≠ call_flip →
            _facingMode (call c this) = _facingMode this).
  { intros c Hno Hset Hflip.
    destruct (task_keeps_facingMode (task_call c) this Hno)
      as [Hsame|[[fm Heq]|Heq]]; [done| |].
    - injection Heq as ->. by destruct (Hset fm).
    - by injection Heq as ->. }
  split; [|split; [|split; [|split]]].
  - destruct (enumerates t) eqn:Henumerates.
    + destruct (task_enumeration t this)
        as [[_ [Hsame|[Hset|Hflip]]]|(mediaDevices & -> & ->)].
      * by left.
      * by right; left.
      * by right; right; left.
      * destruct (decide _) as [Hone|_]; [|by left].
        by right; right; right.
    + destruct (task_keeps_facingMode t this Henumerates)
        as [Hsame|[Hset|Hflip]].
      * by left.
      * by right; left.
      * by right; right; left.
  - intros answer. by apply (Hcall (call_stream answer)).
  - by apply (Hcall call_stop).
  - by apply (Hcall call_selectCamera).
  - intros dataURL. by apply (Hcall (call_snap dataURL)).
Qed.

(** *** Labels *)

(** X20.  The match of [selectCamera] does not depend on letter case: a
    label that contains the word for the facing mode (["front"] for
    ["user"], ["back"] for ["environment"]) in any mix of upper and lower
    case passes the test. *)
Theorem selectCamera_test_any_case (fm : FacingMode)
    (webcam : MediaDeviceInfo) (before word after : string) :
  label webcam = before +:+ word +:+ after →
  toLowerCase word
  = match fm with user => "front" | environment => "back" end →
  selectCamera_test fm webcam = true.
Proof.
  intros Hlabel Hword. apply selectCamera_test_spec. unfold label_matches.
  rewrite Hlabel, !toLowerCase_app, Hword.
  destruct fm; [right | left]; (split; [done|]);
    by exists (toLowerCase before), (toLowerCase after).
Qed.

Lemma selectCamera_test_any_case_witness :
  toLowerCase "FrOnT" = "front"
  ∧ selectCamera_test user
      {| deviceId := "f1"; groupId := "g1"; kind := videoinput;
         label := "My FrOnT Camera" |} = true.
Proof.
  split; [reflexivity|].
  apply (selectCamera_test_any_case user
           {| deviceId := "f1"; groupId := "g1"; kind := videoinput;
              label := "My FrOnT Camera" |}
           "My " "FrOnT" " Camera"); reflexivity.
Defined.
